(** * Verification of the radfu host tool (Renesas RA boot-mode flasher)

    Shallow embedding of the frame codec (src/rapacker.c), the boundary
    computations and chunked read/verify loops (src/radfu.c), the DLM
    transition request (src/radfu.c, with its command-line argument in
    src/main.c) and the baud-rate selection
    (src/raconnect.c).  Bytes and machine integers are [Z]; the C
    wrap-around of [uint8_t], [uint16_t] and [uint32_t] is written out
    with [u8], [u16] and [u32]. *)

From Stdlib Require Import ZArith List Lia Bool Sorted.
From Stdlib Require Ascii String.
Import ListNotations.
Open Scope Z_scope.

(** ** Machine integers *)

Definition u8 (x : Z) : Z := x mod 256.
Definition u16 (x : Z) : Z := x mod 65536.
Definition u32 (x : Z) : Z := x mod 4294967296.

Definition is_byte (b : Z) : Prop := 0 <= b < 256.

(** C errno values used by the codec. *)
Inductive errno := EINVAL | ENOBUFS | EPROTO | EIO | EBADMSG.

Definition errno_eqb (a b : errno) : bool :=
  match a, b with
  | EINVAL, EINVAL | ENOBUFS, ENOBUFS | EPROTO, EPROTO
  | EIO, EIO | EBADMSG, EBADMSG => true
  | _, _ => false
  end.

(** ** Frame codec: src/rapacker.c *)
Module Packer.

Definition MAX_DATA_LEN : Z := 1024.
Definition SOD_CMD : Z := 1.
Definition SOD_ACK : Z := 129.
Definition ETX : Z := 3.
Definition STATUS_ERR : Z := 128.

(** [for (i = 0; i < len; i++) sum += data[i];] on a [uint32_t] *)
Fixpoint sum_data (sum : Z) (data : list Z) : Z :=
  match data with
  | [] => sum
  | d :: ds => sum_data (u32 (sum + d)) ds
  end.

Definition hi_byte (x : Z) : Z := Z.land (Z.shiftr x 8) 255.
Definition lo_byte (x : Z) : Z := Z.land x 255.

(** [ra_calc_sum] *)
Definition ra_calc_sum (cmd : Z) (data : list Z) : Z :=
  let pkt_len := u16 (Z.of_nat (length data) + 1) in
  let lnh := hi_byte pkt_len in
  let lnl := lo_byte pkt_len in
  let sum := sum_data (lnh + lnl + cmd) data in
  Z.land (u32 (Z.lnot (u32 (sum - 1)))) 255.

(** Outcome of [ra_pack_pkt]: the returned length together with the
    bytes written to [buf[0 .. pkt_len-1]], or [-1] with [errno]. *)
Inductive pack_result :=
| PackOk (pkt_len : Z) (frame : list Z)
| PackErr (e : errno).

(** [ra_pack_pkt(buf, buflen, cmd, data, len, ack)] with [len = length data]. *)
Definition ra_pack_pkt (buflen cmd : Z) (data : list Z) (ack : bool) : pack_result :=
  let len := Z.of_nat (length data) in
  if MAX_DATA_LEN <? len then PackErr EINVAL
  else
    let pkt_len := len + 6 in
    if buflen <? pkt_len then PackErr ENOBUFS
    else
      let data_len := u16 (len + 1) in
      let lnh := hi_byte data_len in
      let lnl := lo_byte data_len in
      let sum := ra_calc_sum cmd data in
      PackOk pkt_len
        ([if ack then SOD_ACK else SOD_CMD; lnh; lnl; cmd] ++ data ++ [sum; ETX]).

(** Return value of [ra_unpack_pkt]: [dlen] or [-1] with [errno]. *)
Inductive ret :=
| RetOk (dlen : Z)
| RetErr (e : errno).

(** Final state of the call: return value and the out-parameters
    [data], [*data_len] and [*cmd] ([None] when not written; the
    caller's pointers are non-NULL). *)
Record unpack_out := mk_unpack_out {
  u_ret : ret;
  u_data : option (list Z);
  u_data_len : option Z;
  u_cmd : option Z
}.

Definition byte_at (buf : list Z) (i : Z) : Z := nth (Z.to_nat i) buf 0.
Definition slice (buf : list Z) (off n : Z) : list Z :=
  firstn (Z.to_nat n) (skipn (Z.to_nat off) buf).

Definition unpack_fail (e : errno) : unpack_out := mk_unpack_out (RetErr e) None None None.

(** [ra_unpack_pkt(buf, buflen, data, data_len, cmd)] with
    [buflen = length buf]. *)
Definition ra_unpack_pkt (buf : list Z) : unpack_out :=
  let buflen := Z.of_nat (length buf) in
  if buflen <? 6 then unpack_fail EINVAL
  else
    let sod := byte_at buf 0 in
    if negb (sod =? SOD_ACK) then unpack_fail EPROTO
    else
      let lnh := byte_at buf 1 in
      let lnl := byte_at buf 2 in
      let res := byte_at buf 3 in
      let pkt_len := Z.lor (u16 (Z.shiftl lnh 8)) lnl in
      if pkt_len <? 1 then unpack_fail EPROTO
      else
        let dlen := pkt_len - 1 in
        let total_len := 4 + dlen + 2 in
        if buflen <? total_len then unpack_fail EINVAL
        else if negb (Z.land res STATUS_ERR =? 0) then
          (* MCU error response *)
          if 0 <? dlen
          then mk_unpack_out (RetErr EIO) (Some (slice buf 4 dlen)) (Some dlen) None
          else unpack_fail EIO
        else
          let sum := byte_at buf (4 + dlen) in
          let etx := byte_at buf (5 + dlen) in
          if negb (etx =? ETX) then unpack_fail EPROTO
          else
            let calc := ra_calc_sum res (slice buf 4 dlen) in
            if negb (sum =? calc) then unpack_fail EBADMSG
            else
              mk_unpack_out (RetOk dlen)
                (if 0 <? dlen then Some (slice buf 4 dlen) else None)
                (Some dlen) (Some res).

(** Plain integer sum of a list of bytes. *)
Definition zsum (l : list Z) : Z := fold_right Z.add 0 l.

End Packer.

(** ** Flash areas and boundary computations: src/radfu.c *)
Module Areas.

Definition MAX_AREAS : nat := 4.

(** [ra_area_t]: one area descriptor reported by the device. *)
Record ra_area := mk_area {
  koa : Z; sad : Z; ead : Z; eau : Z; wau : Z; rau : Z; cau : Z
}.

Definition empty_area : ra_area := mk_area 0 0 0 0 0 0 0.

(** [dev->chip_layout[i]] *)
Definition area_at (layout : list ra_area) (i : nat) : ra_area :=
  nth i layout empty_area.

Fixpoint find_from (layout : list ra_area) (addr : Z) (i fuel : nat) : Z :=
  match fuel with
  | O => -1
  | S fuel' =>
      let a := area_at layout i in
      if (sad a =? 0) && (ead a =? 0) then find_from layout addr (S i) fuel'
      else if (sad a <=? addr) && (addr <=? ead a) then Z.of_nat i
      else find_from layout addr (S i) fuel'
  end.

(** [find_area_for_address]: [for (int i = 0; i < MAX_AREAS; i++)]. *)
Definition find_area_for_address (layout : list ra_area) (addr : Z) : Z :=
  find_from layout addr 0 MAX_AREAS.

(** [set_erase_boundaries]: [Some (area, end)] on success, [None] for [-1]. *)
Definition set_erase_boundaries (layout : list ra_area) (start size : Z)
  : option (nat * Z) :=
  let area := find_area_for_address layout start in
  if area <? 0 then None
  else
    let a := area_at layout (Z.to_nat area) in
    let eau := eau a in
    let ead := ead a in
    if eau =? 0 then None
    else if negb (start mod eau =? 0) then None
    else
      let blocks := u32 (size + eau - 1) / eau in
      let end_ := u32 (blocks * eau + start - 1) in
      if end_ <=? start then None
      else if ead <? end_ then None
      else Some (Z.to_nat area, end_).

(** [set_read_boundaries] *)
Definition set_read_boundaries (layout : list ra_area) (start size : Z)
  : option (nat * Z) :=
  let area := find_area_for_address layout start in
  if area <? 0 then None
  else
    let a := area_at layout (Z.to_nat area) in
    let rau := rau a in
    let ead := ead a in
    if rau =? 0 then None
    else if negb (start mod rau =? 0) then None
    else
      let end0 := u32 (start + size - 1) in
      if (end0 <=? start) && (1 <? size) then None
      else if ead <? end0 then None
      else
        let end1 :=
          if negb (u32 (end0 + 1) mod rau =? 0) then
            let aligned_end := u32 ((end0 / rau + 1) * rau - 1) in
            let aligned_end := if ead <? aligned_end then ead else aligned_end in
            if negb (aligned_end =? end0) then aligned_end else end0
          else end0 in
        Some (Z.to_nat area, end1).

(** [set_write_boundaries] *)
Definition set_write_boundaries (layout : list ra_area) (start size : Z)
  : option (nat * Z) :=
  let area := find_area_for_address layout start in
  if area <? 0 then None
  else
    let a := area_at layout (Z.to_nat area) in
    let wau := wau a in
    let ead := ead a in
    if wau =? 0 then None
    else if negb (start mod wau =? 0) then None
    else
      let blocks := u32 (size + wau - 1) / wau in
      let end_ := u32 (blocks * wau + start - 1) in
      if end_ <=? start then None
      else if ead <? end_ then None
      else Some (Z.to_nat area, end_).

(** Slot [a] is a non-empty descriptor whose inclusive range holds [addr]. *)
Definition in_area (a : ra_area) (addr : Z) : Prop :=
  ~ (sad a = 0 /\ ead a = 0) /\ sad a <= addr <= ead a.

(** An area whose access unit is non-negative and whose last address plus
    one unit still fits in the 32-bit address space. *)
Definition unit_fits (unit ead : Z) : Prop :=
  0 <= ead /\ 0 <= unit /\ ead + unit <= 4294967296.

End Areas.

(** ** Chunked read and verify: [ra_read] and [ra_verify] in src/radfu.c *)
Module Chunks.

Definition CHUNK_SIZE : Z := 1024.

(** [nr_chunks = (total_size + CHUNK_SIZE - 1) / CHUNK_SIZE] with
    [total_size = end - start + 1], all [uint32_t]. *)
Definition nr_chunks (start end_ : Z) : Z :=
  u32 (u32 (end_ - start + 1) + CHUNK_SIZE - 1) / CHUNK_SIZE.

(** Loop body: [(chunk_size, chunk_end)] for the chunk at [current_addr]. *)
Definition chunk_bounds (end_ cur : Z) : Z * Z :=
  let remaining := u32 (end_ - cur + 1) in
  let chunk_size := if CHUNK_SIZE <? remaining then CHUNK_SIZE else remaining in
  (chunk_size, u32 (cur + chunk_size - 1)).

(** One REA exchange: the payload of the data frame answering the request
    [{chunk_start, chunk_end}], or [None] when pack, send, receive or
    unpack fails. *)
Definition device := Z -> Z -> option (list Z).

(** The [for (i = 0; i < nr_chunks; i++)] loop of [ra_read]: the requests
    sent, in order, and the assembled buffer ([None] when the read fails). *)
Fixpoint read_loop (dev : device) (end_ cur : Z) (n : nat)
  : list (Z * Z) * option (list Z) :=
  match n with
  | O => ([], Some [])
  | S n' =>
      let '(chunk_size, chunk_end) := chunk_bounds end_ cur in
      match dev cur chunk_end with
      | None => ([(cur, chunk_end)], None)
      | Some chunk =>
          let '(reqs, buf) := read_loop dev end_ (u32 (cur + chunk_size)) n' in
          ((cur, chunk_end) :: reqs, option_map (fun b => chunk ++ b) buf)
      end
  end.

Definition ra_read_loop (dev : device) (start end_ : Z) : list (Z * Z) * option (list Z) :=
  read_loop dev end_ start (Z.to_nat (nr_chunks start end_)).

(** Outcome of [ra_verify] after the boundaries are set. *)
Inductive vresult :=
| VerifyOk
| VerifyMismatch (addr flash file : Z)   (* "verify FAILED at ..: flash=.., file=.." *)
| VerifyNotFF (addr flash : Z)           (* "... expected=0xFF (beyond file)" *)
| VerifyIOFail.

(** [for (j = 0; j < cmp_len; j++) if (flash_chunk[j] != parsed.data[file_offset + j]) ...] *)
Fixpoint cmp_loop (cur foff : Z) (flash file : list Z) (j fuel : nat) : option vresult :=
  match fuel with
  | O => None
  | S fuel' =>
      let fb := nth j flash 0 in
      let db := nth (Z.to_nat foff + j) file 0 in
      if negb (fb =? db) then Some (VerifyMismatch (u32 (cur + Z.of_nat j)) fb db)
      else cmp_loop cur foff flash file (S j) fuel'
  end.

(** [for (j = cmp_len; j < chunk_len; j++) if (flash_chunk[j] != 0xFF) ...] *)
Fixpoint ff_loop (cur : Z) (flash : list Z) (j fuel : nat) : option vresult :=
  match fuel with
  | O => None
  | S fuel' =>
      let fb := nth j flash 0 in
      if negb (fb =? 255) then Some (VerifyNotFF (u32 (cur + Z.of_nat j)) fb)
      else ff_loop cur flash (S j) fuel'
  end.

(** The chunk loop of [ra_verify]; [file] is [parsed.data]. *)
Fixpoint verify_loop (dev : device) (file : list Z) (end_ cur foff : Z) (n : nat)
  : vresult :=
  match n with
  | O => VerifyOk
  | S n' =>
      let '(chunk_size, chunk_end) := chunk_bounds end_ cur in
      match dev cur chunk_end with
      | None => VerifyIOFail
      | Some flash =>
          let chunk_len := Z.of_nat (length flash) in
          let remaining_file := Z.of_nat (length file) - foff in
          let cmp_len := Z.min remaining_file chunk_len in
          match cmp_loop cur foff flash file 0 (Z.to_nat cmp_len) with
          | Some r => r
          | None =>
              match
                (if cmp_len <? chunk_len
                 then ff_loop cur flash (Z.to_nat cmp_len) (Z.to_nat (chunk_len - cmp_len))
                 else None)
              with
              | Some r => r
              | None =>
                  verify_loop dev file end_ (u32 (cur + chunk_size))
                    (u32 (foff + cmp_len)) n'
              end
          end
      end
  end.

Definition ra_verify_loop (dev : device) (file : list Z) (start end_ : Z) : vresult :=
  verify_loop dev file end_ start 0 (Z.to_nat (nr_chunks start end_)).

(** A device that answers every REA request with the flash contents
    [mem] of the requested inclusive range. *)
Definition flash_device (mem : Z -> Z) : device :=
  fun s e => Some (map (fun k => mem (u32 (s + Z.of_nat k)))
                       (seq 0 (Z.to_nat (u32 (e - s + 1))))).

(** Reference semantics of a verify, following the spec's words: bytes
    [start + k] for [k = 0, 1, ...] are compared in order against the
    file byte [k], or against [0xFF] past the end of the file; the first
    difference is reported. *)
Fixpoint verify_spec (mem : Z -> Z) (file : list Z) (start : Z) (k n : nat) : vresult :=
  match n with
  | O => VerifyOk
  | S n' =>
      let a := u32 (start + Z.of_nat k) in
      match nth_error file k with
      | Some d =>
          if mem a =? d then verify_spec mem file start (S k) n'
          else VerifyMismatch a (mem a) d
      | None =>
          if mem a =? 255 then verify_spec mem file start (S k) n'
          else VerifyNotFF a (mem a)
      end
  end.

(** A verify result seen as "stop here" ([Some]) or "go on" ([None]). *)
Definition verify_stop (r : vresult) : option vresult :=
  match r with
  | VerifyOk => None
  | _ => Some r
  end.

(** Bytes requested by the loop: the sum of the chunk sizes. *)
Fixpoint read_span (end_ cur : Z) (n : nat) : Z :=
  match n with
  | O => 0
  | S n' =>
      let '(chunk_size, _) := chunk_bounds end_ cur in
      chunk_size + read_span end_ (u32 (cur + chunk_size)) n'
  end.

End Chunks.

(** ** DLM state transition: [ra_dlm_transit] in src/radfu.c *)
Module Dlm.
Import Packer.

Definition MAX_PKT_LEN : Z := MAX_DATA_LEN + 6.
Definition DLM_CMD : Z := 44.          (* 0x2C *)
Definition DLM_TRANSIT_CMD : Z := 113. (* 0x71 *)

Definition DLM_STATE_CM : Z := 1.
Definition DLM_STATE_SSD : Z := 2.
Definition DLM_STATE_NSECSD : Z := 3.
Definition DLM_STATE_DPL : Z := 4.
Definition DLM_STATE_LCK_DBG : Z := 5.
Definition DLM_STATE_LCK_BOOT : Z := 6.
Definition DLM_STATE_RMA_REQ : Z := 7.

Definition sent_frame (r : pack_result) : list (list Z) :=
  match r with PackOk _ f => [f] | PackErr _ => [] end.

(** Frames [ra_dlm_transit(dev, dest_dlm)] puts on the wire, given the
    state the device reports to the DLM state request ([None] when that
    exchange fails). *)
Definition ra_dlm_transit (current : option Z) (dest_dlm : Z) : list (list Z) :=
  let query := sent_frame (ra_pack_pkt MAX_PKT_LEN DLM_CMD [] false) in
  match current with
  | None => query
  | Some current_dlm =>
      if current_dlm =? dest_dlm then query
      else query ++ sent_frame
                      (ra_pack_pkt MAX_PKT_LEN DLM_TRANSIT_CMD [current_dlm; dest_dlm] false)
  end.

(** The unauthenticated transitions listed in src/radfu.h. *)
Definition allowed_unauth (src dst : Z) : bool :=
  ((src =? DLM_STATE_CM) && (dst =? DLM_STATE_SSD))
  || ((src =? DLM_STATE_SSD) && ((dst =? DLM_STATE_NSECSD) || (dst =? DLM_STATE_DPL)))
  || ((src =? DLM_STATE_NSECSD) && (dst =? DLM_STATE_DPL))
  || ((src =? DLM_STATE_DPL) && ((dst =? DLM_STATE_LCK_DBG) || (dst =? DLM_STATE_LCK_BOOT)))
  || ((src =? DLM_STATE_LCK_DBG) && (dst =? DLM_STATE_LCK_BOOT)).

(** The [dlm-transit <state>] argument of src/main.c, compared with
    [strcasecmp]; [None] is the [errx] exit "unknown DLM state". *)
Module Cli.
Import Ascii String.

(** [tolower] on ASCII. *)
Definition lower_ascii (c : ascii) : ascii :=
  let n := nat_of_ascii c in
  if ((65 <=? n) && (n <=? 90))%nat then ascii_of_nat (n + 32) else c.

(** [strcasecmp(s, t) == 0] *)
Fixpoint strcaseeq (s t : string) : bool :=
  match s, t with
  | EmptyString, EmptyString => true
  | String a s', String b t' => Ascii.eqb (lower_ascii a) (lower_ascii b) && strcaseeq s' t'
  | _, _ => false
  end.

Definition dlm_transit_arg (state : string) : option Z :=
  if strcaseeq state "ssd" then Some DLM_STATE_SSD
  else if strcaseeq state "nsecsd" then Some DLM_STATE_NSECSD
  else if strcaseeq state "dpl" then Some DLM_STATE_DPL
  else if strcaseeq state "lck_dbg" then Some DLM_STATE_LCK_DBG
  else if strcaseeq state "lck_boot" then Some DLM_STATE_LCK_BOOT
  else None.

End Cli.

End Dlm.

(** ** Baud-rate selection: [ra_best_baudrate] in src/raconnect.c *)
Module Baud.

(** The rate table with every [B*] speed constant defined (Linux; the
    table of src/raconnect_windows.c is the same). *)
Definition rates : list Z :=
  [4000000; 3500000; 3000000; 2500000; 2000000; 1500000; 1152000; 1000000;
   921600; 576000; 500000; 460800; 230400; 115200; 57600; 38400; 19200; 9600].

Fixpoint first_le (rs : list Z) (max : Z) : Z :=
  match rs with
  | [] => 9600
  | r :: rs' => if r <=? max then r else first_le rs' max
  end.

Definition ra_best_baudrate (max : Z) : Z := first_le rates max.

End Baud.

(** ** Big-endian helpers: [uint32_to_be] and [be_to_uint32] in
    src/rapacker.h, [uint16_to_be] and [be_to_uint16] in src/radfu.c.
    A [const uint8_t *buf] argument is the list of bytes from that
    pointer on. *)
Module Be.
Import Packer.

Definition uint32_to_be (val : Z) : list Z :=
  [Z.land (Z.shiftr val 24) 255; Z.land (Z.shiftr val 16) 255;
   Z.land (Z.shiftr val 8) 255; Z.land val 255].

Definition be_to_uint32 (buf : list Z) : Z :=
  Z.lor (Z.lor (Z.lor (u32 (Z.shiftl (byte_at buf 0) 24)) (u32 (Z.shiftl (byte_at buf 1) 16)))
               (u32 (Z.shiftl (byte_at buf 2) 8)))
        (byte_at buf 3).

Definition uint16_to_be (val : Z) : list Z :=
  [Z.land (Z.shiftr val 8) 255; Z.land val 255].

(** [((uint16_t)buf[0] << 8) | (uint16_t)buf[1]], returned as [uint16_t]. *)
Definition be_to_uint16 (buf : list Z) : Z :=
  u16 (Z.lor (Z.shiftl (byte_at buf 0) 8) (byte_at buf 1)).

End Be.

(** ** More of src/radfu.c on flash areas *)
Module AreaOps.
Import Packer Areas Be.

(** The loop of [ra_find_area_by_koa]: state [(combined_sad, combined_ead, found)]. *)
Fixpoint koa_loop (layout : list ra_area) (k : Z) (i fuel : nat) (st : Z * Z * bool)
  : Z * Z * bool :=
  match fuel with
  | O => st
  | S fuel' =>
      let a := area_at layout i in
      if (sad a =? 0) && (ead a =? 0) then koa_loop layout k (S i) fuel' st
      else if koa a =? k then
        let '(csad, cead, _) := st in
        let csad := if sad a <? csad then sad a else csad in
        let cead := if cead <? ead a then ead a else cead in
        koa_loop layout k (S i) fuel' (csad, cead, true)
      else koa_loop layout k (S i) fuel' st
  end.

(** [ra_find_area_by_koa]: [Some (sad, ead)] for return value 0, [None] for [-1]. *)
Definition ra_find_area_by_koa (layout : list ra_area) (k : Z) : option (Z * Z) :=
  let '(csad, cead, found) := koa_loop layout k 0 MAX_AREAS (4294967295, 0, false) in
  if negb found then None else Some (csad, cead).

(** Slot [i] is a non-empty descriptor of kind [k]. *)
Definition koa_slot (layout : list ra_area) (k : Z) (i : nat) : Prop :=
  ~ (sad (area_at layout i) = 0 /\ ead (area_at layout i) = 0) /\ koa (area_at layout i) = k.

(** [set_crc_boundaries] *)
Definition set_crc_boundaries (layout : list ra_area) (start size : Z)
  : option (nat * Z) :=
  let area := find_area_for_address layout start in
  if area <? 0 then None
  else
    let a := area_at layout (Z.to_nat area) in
    let cau := cau a in
    let ead := ead a in
    if cau =? 0 then None
    else if negb (start mod cau =? 0) then None
    else
      let blocks := u32 (size + cau - 1) / cau in
      let end_ := u32 (blocks * cau + start - 1) in
      if (end_ <=? start) && (cau <? size) then None
      else if ead <? end_ then None
      else Some (Z.to_nat area, end_).

Definition ERA_CMD : Z := 18.  (* 0x12 *)
Definition CRC_CMD : Z := 24.  (* 0x18 *)
Definition MAX_PKT_LEN : Z := MAX_DATA_LEN + 6.

(** The request frame [ra_erase(dev, start, size)] sends, or [None] when it
    returns before sending. *)
Definition ra_erase_frame (layout : list ra_area) (start size : Z) : option (list Z) :=
  match set_erase_boundaries layout start (if size =? 0 then 1 else size) with
  | None => None
  | Some (_, end_) =>
      match ra_pack_pkt MAX_PKT_LEN ERA_CMD (uint32_to_be start ++ uint32_to_be end_) false with
      | PackOk _ f => Some f
      | PackErr _ => None
      end
  end.

(** The request frame [ra_crc(dev, start, size, crc_out)] sends. *)
Definition ra_crc_frame (layout : list ra_area) (start size : Z) : option (list Z) :=
  match set_crc_boundaries layout start (if size =? 0 then 1 else size) with
  | None => None
  | Some (_, end_) =>
      match ra_pack_pkt MAX_PKT_LEN CRC_CMD (uint32_to_be start ++ uint32_to_be end_) false with
      | PackOk _ f => Some f
      | PackErr _ => None
      end
  end.

(** One area of [ra_get_area_info]: [KOA(1) SAD(4) EAD(4) EAU(4) WAU(4)
    RAU(4) CAU(4)] from the response payload, [None] for a short payload. *)
Definition parse_area (data : list Z) : option ra_area :=
  if Z.of_nat (length data) <? 25 then None
  else Some (mk_area (byte_at data 0)
               (be_to_uint32 (skipn 1 data)) (be_to_uint32 (skipn 5 data))
               (be_to_uint32 (skipn 9 data)) (be_to_uint32 (skipn 13 data))
               (be_to_uint32 (skipn 17 data)) (be_to_uint32 (skipn 21 data))).

(** The payload a device sends for one area. *)
Definition area_payload (a : ra_area) : list Z :=
  [koa a] ++ uint32_to_be (sad a) ++ uint32_to_be (ead a) ++ uint32_to_be (eau a)
  ++ uint32_to_be (wau a) ++ uint32_to_be (rau a) ++ uint32_to_be (cau a).

End AreaOps.

(** ** Block protection: [count_protected_blocks], [is_block_protected]
    and [addr_to_block] in src/radfu.c *)
Module Protect.
Import Packer.

(** [for (i < len) for (b = 0; b < 8; b++) if ((byte & (1 << b)) == 0) count++;] *)
Definition count_protected_blocks (bps : list Z) : Z :=
  fold_left (fun count byte =>
               fold_left (fun c b => if Z.land byte (Z.shiftl 1 b) =? 0 then c + 1 else c)
                 [0; 1; 2; 3; 4; 5; 6; 7] count)
    bps 0.

Definition is_block_protected (bps : list Z) (bps_len block_num : Z) : bool :=
  if (block_num <? 0) || (bps_len * 8 <=? block_num) then false
  else
    let byte_idx := block_num / 8 in
    let bit_idx := block_num mod 8 in
    Z.land (byte_at bps byte_idx) (Z.shiftl 1 bit_idx) =? 0.

Definition addr_to_block (offset code_size : Z) : Z :=
  if code_size <=? offset then -1
  else if offset <? 65536 then offset / 8192
  else 8 + (offset - 65536) / 32768.

End Protect.

(** ** Write, blank check and flash usage scan: [ra_write],
    [ra_blank_check] and [status_scan_flash_usage] in src/radfu.c *)
Module Transfer.
Import Packer Areas Chunks Be AreaOps.

Definition WRI_CMD : Z := 19.  (* 0x13 *)
Definition REA_CMD : Z := 21.  (* 0x15 *)

(** The [while (total < write_size)] loop of [ra_write]. [wdev f] tells
    whether the exchange after sending frame [f] succeeds (send, receive
    and [unpack_with_error]). Result: the frames sent, in order, and
    whether the loop ran to its end. Each round raises [total] by at
    least one, so [fuel > write_size] rounds are never exhausted. *)
Fixpoint write_loop (wdev : list Z -> bool) (file : list Z) (write_size : Z)
  (fuel : nat) (total buf_offset : Z) : list (list Z) * bool :=
  match fuel with
  | O => ([], true)
  | S fuel' =>
      if total <? write_size then
        let remaining := u32 (write_size - total) in
        let chunk_size := if remaining <? CHUNK_SIZE then remaining else CHUNK_SIZE in
        let file_size := u32 (Z.of_nat (length file)) in
        let copy_size :=
          if u32 (buf_offset + chunk_size) <=? file_size then chunk_size
          else if buf_offset <? file_size then u32 (file_size - buf_offset) else 0 in
        let chunk := slice file buf_offset copy_size
                     ++ repeat 0 (Z.to_nat (chunk_size - copy_size)) in
        match ra_pack_pkt MAX_PKT_LEN WRI_CMD chunk true with
        | PackErr _ => ([], false)
        | PackOk _ f =>
            if wdev f then
              let '(fs, ok) := write_loop wdev file write_size fuel'
                                 (u32 (total + chunk_size)) (u32 (buf_offset + copy_size)) in
              (f :: fs, ok)
            else ([f], false)
        end
      else ([], true)
  end.

(** Host-side outcomes the read-back of a verified write depends on. *)
Record host_env := mk_host {
  h_mkstemp : bool;       (* [mkstemp] of the temporary file *)
  h_malloc : bool;        (* [malloc] of the read buffer in [ra_read] *)
  h_format_write : bool;  (* [format_write] of the read-back into the file *)
  h_open : bool           (* [open] of the temporary file for the comparison *)
}.

(** [ra_read(dev, file, start, size, FORMAT_BIN)]: the REA requests sent
    and whether it returns 0. *)
Definition ra_read (dev : device) (h : host_env) (layout : list ra_area) (start size : Z)
  : list (Z * Z) * bool :=
  match set_read_boundaries layout start
          (if size =? 0 then u32 (262143 - start) else size) with
  | None => ([], false)
  | Some (_, end_) =>
      if negb (h_malloc h) then ([], false)
      else
        let '(reqs, buf) := ra_read_loop dev start end_ in
        match buf with
        | None => (reqs, false)
        | Some _ => (reqs, h_format_write h)
        end
  end.

(** The [if (verify)] block of [ra_write]: the REA requests of the
    read-back and whether [ra_write] goes on to return 0. The byte
    comparison that follows only chooses between printing "Verify
    complete" and "Verify failed": [ra_write] returns 0 after either, so
    the comparison is not modelled. *)
Definition write_verify (dev : device) (h : host_env) (layout : list ra_area)
  (start size : Z) : list (Z * Z) * bool :=
  if negb (h_mkstemp h) then ([], false)
  else
    let '(reqs, ok) := ra_read dev h layout start size in
    if ok then (reqs, h_open h) else (reqs, false).

(** [if (start == 0 && parsed.has_addr) start = parsed.base_addr;], with
    [base = Some parsed.base_addr] when [parsed.has_addr]. *)
Definition write_start (base : option Z) (start : Z) : Z :=
  match base with
  | Some b => if start =? 0 then b else start
  | None => start
  end.

(** [ra_write(dev, file, start, size, verify, format)] once the file is
    parsed into [file] (with its embedded address [base]): the WRI frames
    sent, the REA requests of the read-back, and whether it returns 0.
    [wdev] is the outcome of each write exchange, [dev] answers the
    read-back requests. *)
Definition ra_write (wdev : list Z -> bool) (dev : device) (h : host_env)
  (layout : list ra_area) (file : list Z) (base : option Z) (start size : Z)
  (verify : bool) : list (list Z) * list (Z * Z) * bool :=
  let start := write_start base start in
  let file_size := u32 (Z.of_nat (length file)) in
  let size := if size =? 0 then file_size else size in
  if file_size <? size then ([], [], false)
  else
    match set_write_boundaries layout start size with
    | None => ([], [], false)
    | Some (_, end_) =>
        let write_size := u32 (end_ - start + 1) in
        match ra_pack_pkt MAX_PKT_LEN WRI_CMD (uint32_to_be start ++ uint32_to_be end_) false with
        | PackErr _ => ([], [], false)
        | PackOk _ f0 =>
            if wdev f0 then
              let '(fs, ok) := write_loop wdev file write_size
                                 (S (Z.to_nat write_size)) 0 0 in
              if negb ok then (f0 :: fs, [], false)
              else if verify then
                let '(reqs, vok) := write_verify dev h layout start size in
                (f0 :: fs, reqs, vok)
              else (f0 :: fs, [], true)
            else ([f0], [], false)
        end
    end.

(** The chunk loop of [ra_blank_check]. *)
Fixpoint blank_loop (dev : device) (end_ cur : Z) (n : nat) : vresult :=
  match n with
  | O => VerifyOk
  | S n' =>
      let '(chunk_size, chunk_end) := chunk_bounds end_ cur in
      match dev cur chunk_end with
      | None => VerifyIOFail
      | Some flash =>
          match ff_loop cur flash 0 (length flash) with
          | Some r => r
          | None => blank_loop dev end_ (u32 (cur + chunk_size)) n'
          end
      end
  end.

(** [ra_blank_check]: [None] when it returns before the loop. *)
Definition ra_blank_check (dev : device) (layout : list ra_area) (start size : Z)
  : option vresult :=
  if size =? 0 then None
  else
    match set_read_boundaries layout start size with
    | None => None
    | Some (_, end_) => Some (blank_loop dev end_ start (Z.to_nat (nr_chunks start end_)))
    end.

(** Raw exchange: the bytes received for the REA request [{s, e}], or
    [None] when pack, send or receive fails. *)
Definition raw_device := Z -> Z -> option (list Z).

(** The chunk loop of [status_scan_flash_usage]; [used] is the count so far. *)
Fixpoint scan_loop (rdev : raw_device) (ead cur : Z) (n : nat) (used : Z) : option Z :=
  match n with
  | O => Some used
  | S n' =>
      let '(chunk_size, chunk_end) := chunk_bounds ead cur in
      match rdev cur chunk_end with
      | None => None
      | Some resp =>
          if Z.of_nat (length resp) <? 7 then None
          else
            let u := ra_unpack_pkt resp in
            match u_ret u with
            | RetErr _ => None
            | RetOk chunk_len =>
                let cmd := match u_cmd u with Some c => c | None => 0 end in
                if negb (Z.land cmd STATUS_ERR =? 0) then None
                else
                  let chunk := match u_data u with Some d => d | None => [] end in
                  let nonff := Z.of_nat (length (filter (fun b => negb (b =? 255))
                                                   (firstn (Z.to_nat chunk_len) chunk))) in
                  scan_loop rdev ead (u32 (cur + chunk_size)) n' (used + nonff)
            end
      end
  end.

(** [status_scan_flash_usage(dev, sad, ead, rau)]: [None] for [-1]. *)
Definition status_scan_flash_usage (rdev : raw_device) (sad ead rau : Z) : option Z :=
  if rau =? 0 then None
  else scan_loop rdev ead sad (Z.to_nat (nr_chunks sad ead)) 0.

(** A device answering each REA request with a response frame carrying
    the flash contents [mem] of the requested range. *)
Definition flash_raw_device (mem : Z -> Z) : raw_device :=
  fun s e =>
    match flash_device mem s e with
    | None => None
    | Some data =>
        match ra_pack_pkt MAX_PKT_LEN REA_CMD data true with
        | PackOk _ f => Some f
        | PackErr _ => None
        end
    end.

End Transfer.

(** ** Boundary settings: [ra_set_boundary] and [ra_get_boundary] in
    src/radfu.c *)
Module Commands.
Import Packer Be Dlm.

(** [ra_boundary_t] *)
Record ra_boundary := mk_boundary {
  cfs1 : Z; cfs2 : Z; dfs : Z; srs1 : Z; srs2 : Z
}.

(** The decoding of [ra_get_boundary]: [None] when [data_len < 10]. *)
Definition ra_get_boundary_parse (data : list Z) : option ra_boundary :=
  if Z.of_nat (length data) <? 10 then None
  else Some (mk_boundary (be_to_uint16 data) (be_to_uint16 (skipn 2 data))
               (be_to_uint16 (skipn 4 data)) (be_to_uint16 (skipn 6 data))
               (be_to_uint16 (skipn 8 data))).

(** Every field holds a [uint16_t]. *)
Definition u16_fields (bnd : ra_boundary) : Prop :=
  0 <= cfs1 bnd < 65536 /\ 0 <= cfs2 bnd < 65536 /\ 0 <= dfs bnd < 65536 /\
  0 <= srs1 bnd < 65536 /\ 0 <= srs2 bnd < 65536.

Section SetBoundary.
(** The command byte [BND_SET_CMD]; its value is not defined in src/. *)
Variable BND_SET_CMD : Z.

(** The 10-byte payload [ra_set_boundary] packs. *)
Definition boundary_payload (bnd : ra_boundary) : list Z :=
  uint16_to_be (cfs1 bnd) ++ uint16_to_be (cfs2 bnd) ++ uint16_to_be (dfs bnd)
  ++ uint16_to_be (srs1 bnd) ++ uint16_to_be (srs2 bnd).

(** Frames [ra_set_boundary(dev, bnd)] sends. *)
Definition ra_set_boundary (bnd : ra_boundary) : list (list Z) :=
  if cfs2 bnd <? cfs1 bnd then []
  else if srs2 bnd <? srs1 bnd then []
  else sent_frame (ra_pack_pkt MAX_PKT_LEN BND_SET_CMD (boundary_payload bnd) false).

End SetBoundary.

End Commands.

(** ** Baud-rate switching: [baudrate_to_speed] and [ra_set_baudrate] in
    src/raconnect.c, [ra_get_device_max_baudrate] in src/radfu.c and the
    automatic selection of src/main.c *)
Module BaudOps.
Import Packer Be Baud.

Definition BAU_CMD : Z := 52.  (* 0x34 *)

(** [speed_t]: [B0] or the constant [B<rate>]. *)
Inductive speed := B0 | Bspeed (rate : Z).

(** The [case] labels of [baudrate_to_speed] with every [B*] constant
    defined (Linux). *)
Definition speed_cases : list Z :=
  [9600; 19200; 38400; 57600; 115200; 230400; 460800; 500000; 576000; 921600;
   1000000; 1152000; 1500000; 2000000; 2500000; 3000000; 3500000; 4000000].

Definition baudrate_to_speed (baudrate : Z) : speed :=
  if existsb (Z.eqb baudrate) speed_cases then Bspeed baudrate else B0.

(** The BAU request frame [ra_set_baudrate(dev, baudrate)] sends, [None]
    when it refuses the rate before sending. *)
Definition ra_set_baudrate_frame (baudrate : Z) : option (list Z) :=
  match baudrate_to_speed baudrate with
  | B0 => None
  | Bspeed _ =>
      let data := [Z.land (Z.shiftr baudrate 24) 255; Z.land (Z.shiftr baudrate 16) 255;
                   Z.land (Z.shiftr baudrate 8) 255; Z.land baudrate 255] in
      match ra_pack_pkt (MAX_DATA_LEN + 6) BAU_CMD data false with
      | PackOk _ f => Some f
      | PackErr _ => None
      end
  end.

(** [ra_get_device_max_baudrate], given the bytes received for the SIG
    request ([None] when pack, send or receive fails). *)
Definition ra_get_device_max_baudrate (resp : option (list Z)) : Z :=
  match resp with
  | None => 115200
  | Some r =>
      if Z.of_nat (length r) <? 7 then 115200
      else
        let u := ra_unpack_pkt r in
        match u_ret u with
        | RetErr _ => 115200
        | RetOk data_len =>
            if data_len <? 41 then 115200
            else
              let data := match u_data u with Some d => d | None => [] end in
              let product := slice data 25 16 in
              if (byte_at product 0 =? 82) && (byte_at product 1 =? 55)       (* 'R' '7' *)
                 && (byte_at product 2 =? 70) && (byte_at product 3 =? 65)    (* 'F' 'A' *)
              then
                let series := byte_at product 4 in
                if (series =? 50) || (series =? 52) then 1500000       (* '2' '4' *)
                else if (series =? 54) || (series =? 56) then 4000000  (* '6' '8' *)
                else 115200
              else 115200
        end
  end.

(** The rate src/main.c picks in UART mode without [-b]:
    [ra_best_baudrate(min(device_max, adapter_max))]. *)
Definition auto_baudrate (device_max adapter_max : Z) : Z :=
  let target := if device_max <? adapter_max then device_max else adapter_max in
  ra_best_baudrate target.

End BaudOps.

Module PackerTests.
Import Packer.
Example pack_empty :
  ra_pack_pkt 1030 0 [] true = PackOk 6 [129; 0; 1; 0; 255; 3].
Proof. reflexivity. Qed.
Example unpack_vector :
  ra_unpack_pkt [129; 0; 4; 21; 170; 187; 204; 182; 3]
  = mk_unpack_out (RetOk 3) (Some [170; 187; 204]) (Some 3) (Some 21).
Proof. reflexivity. Qed.
Example unpack_err_vector :
  u_ret (ra_unpack_pkt [129; 0; 2; 147; 195; 56; 3]) = RetErr EIO.
Proof. reflexivity. Qed.
End PackerTests.

(** ** Arithmetic facts on the wrap-around *)
Module WrapFacts.

Lemma u32_mod256 (x : Z) : u32 x mod 256 = x mod 256.
Proof.
  unfold u32.
  rewrite (Z.mod_eq x 4294967296) by lia.
  replace (x - 4294967296 * (x / 4294967296))
    with (x + (- (x / 4294967296) * 16777216) * 256) by ring.
  apply Z_mod_plus_full.
Qed.

Lemma land255 (x : Z) : Z.land x 255 = x mod 256.
Proof.
  change 255 with (Z.ones 8). rewrite Z.land_ones by lia. reflexivity.
Qed.

Lemma u32_id (x : Z) : 0 <= x < 4294967296 -> u32 x = x.
Proof. intros. unfold u32. apply Z.mod_small. lia. Qed.

Lemma u16_id (x : Z) : 0 <= x < 65536 -> u16 x = x.
Proof. intros. unfold u16. apply Z.mod_small. lia. Qed.

(** The two bytes of a 16-bit value. *)
Lemma hi_lo_bytes (x : Z) :
  0 <= x < 65536 -> Packer.hi_byte x * 256 + Packer.lo_byte x = x.
Proof.
  intros H. unfold Packer.hi_byte, Packer.lo_byte.
  rewrite !land255, Z.shiftr_div_pow2 by lia.
  change (2 ^ 8) with 256.
  rewrite (Z.mod_small (x / 256)) by (split; [apply Z.div_pos | apply Z.div_lt_upper_bound]; lia).
  pose proof (Z.div_mod x 256). lia.
Qed.

Lemma join_bytes (h l : Z) :
  is_byte h -> is_byte l ->
  Z.lor (u16 (Z.shiftl h 8)) l = h * 256 + l.
Proof.
  unfold is_byte. intros Hh Hl.
  rewrite Z.shiftl_mul_pow2 by lia. change (2 ^ 8) with 256.
  rewrite u16_id by lia.
  assert (Hd : Z.land (h * 256) l = 0).
  { apply Z.bits_inj'. intros n Hn. rewrite Z.land_spec, Z.bits_0.
    change 256 with (2 ^ 8). rewrite <- Z.shiftl_mul_pow2 by lia.
    destruct (Z.lt_ge_cases n 8).
    - rewrite Z.shiftl_spec_low by lia. reflexivity.
    - rewrite <- (Z.mod_small l (2 ^ 8)) by (change (2 ^ 8) with 256; lia).
      rewrite Z.mod_pow2_bits_high by lia. apply andb_false_r. }
  rewrite <- Z.lxor_lor, <- Z.add_nocarry_lxor by exact Hd. reflexivity.
Qed.

Lemma hi_byte_join (h l : Z) :
  is_byte h -> is_byte l -> Packer.hi_byte (h * 256 + l) = h.
Proof.
  unfold is_byte, Packer.hi_byte. intros Hh Hl.
  rewrite land255, Z.shiftr_div_pow2 by lia. change (2 ^ 8) with 256.
  replace ((h * 256 + l) / 256) with h.
  - apply Z.mod_small; lia.
  - apply Z.div_unique with l; lia.
Qed.

Lemma lo_byte_join (h l : Z) :
  is_byte h -> is_byte l -> Packer.lo_byte (h * 256 + l) = l.
Proof.
  unfold is_byte, Packer.lo_byte. intros Hh Hl.
  rewrite land255. rewrite Z.add_comm, Z_mod_plus_full. apply Z.mod_small; lia.
Qed.

End WrapFacts.

(** ** Checksum *)
Module ChecksumFacts.
Import Packer WrapFacts.

Lemma sum_data_mod (s : Z) (data : list Z) :
  sum_data s data mod 256 = (s + zsum data) mod 256.
Proof.
  revert s. induction data as [|d ds IH]; intros s; simpl.
  - rewrite Z.add_0_r. reflexivity.
  - rewrite IH. rewrite Z.add_mod, u32_mod256, <- Z.add_mod by lia.
    f_equal. ring.
Qed.

Lemma opp_mod256 (x : Z) : (- x) mod 256 = (- (x mod 256)) mod 256.
Proof.
  replace (- x) with (- (x mod 256) + (- (x / 256)) * 256)
    by (rewrite (Z.mod_eq x 256) by lia; ring).
  apply Z_mod_plus_full.
Qed.

Lemma calc_sum_spec (cmd : Z) (data : list Z) :
  ra_calc_sum cmd data =
  (- (hi_byte (u16 (Z.of_nat (length data) + 1))
      + lo_byte (u16 (Z.of_nat (length data) + 1)) + cmd + zsum data)) mod 256.
Proof.
  unfold ra_calc_sum. cbv zeta.
  rewrite land255, u32_mod256, Z.lnot_eq_pred_opp.
  set (h := hi_byte _). set (l := lo_byte _).
  unfold u32.
  rewrite (Z.mod_eq (sum_data (h + l + cmd) data - 1) 4294967296) by lia.
  set (q := (_ - 1) / 4294967296).
  replace (- (sum_data (h + l + cmd) data - 1 - 4294967296 * q) - 1)
    with (- sum_data (h + l + cmd) data + (q * 16777216) * 256) by ring.
  rewrite Z_mod_plus_full, opp_mod256, sum_data_mod, <- opp_mod256.
  reflexivity.
Qed.

(** Sum of a frame's bytes from LNH through SUM. *)
Lemma pack_frame_sum (cmd : Z) (data : list Z) :
  (hi_byte (u16 (Z.of_nat (length data) + 1)) + lo_byte (u16 (Z.of_nat (length data) + 1))
   + cmd + zsum data + ra_calc_sum cmd data) mod 256 = 0.
Proof.
  rewrite calc_sum_spec.
  set (t := hi_byte _ + lo_byte _ + cmd + zsum data).
  rewrite Z.add_mod_idemp_r by lia.
  replace (t + - t) with 0 by ring. reflexivity.
Qed.

Lemma zsum_app (a b : list Z) : zsum (a ++ b) = zsum a + zsum b.
Proof.
  induction a as [|x a IH]; simpl; [reflexivity | rewrite IH; ring].
Qed.

End ChecksumFacts.

(** ** Shape of accepted frames *)
Module CodecFacts.
Import Packer WrapFacts ChecksumFacts.

Ltac split_ifs H :=
  repeat match type of H with
         | context [if ?c then _ else _] =>
             let E := fresh "E" in destruct c eqn:E
         end;
  cbv [u_ret unpack_fail] in H; try discriminate.

Lemma pack_ok_inv (buflen cmd : Z) (data : list Z) (ack : bool) (n : Z) (f : list Z) :
  ra_pack_pkt buflen cmd data ack = PackOk n f ->
  Z.of_nat (length data) <= MAX_DATA_LEN /\
  Z.of_nat (length data) + 6 <= buflen /\
  n = Z.of_nat (length data) + 6 /\
  f = [if ack then SOD_ACK else SOD_CMD;
       hi_byte (u16 (Z.of_nat (length data) + 1));
       lo_byte (u16 (Z.of_nat (length data) + 1)); cmd]
      ++ data ++ [ra_calc_sum cmd data; ETX].
Proof.
  unfold ra_pack_pkt. cbv zeta. intros H.
  destruct (MAX_DATA_LEN <? _) eqn:E1; [discriminate|].
  destruct (buflen <? _) eqn:E2; [discriminate|].
  injection H as <- <-. rewrite Z.ltb_ge in E1, E2. auto.
Qed.

Lemma pack_ok (buflen cmd : Z) (data : list Z) (ack : bool) :
  Z.of_nat (length data) <= MAX_DATA_LEN ->
  Z.of_nat (length data) + 6 <= buflen ->
  ra_pack_pkt buflen cmd data ack =
  PackOk (Z.of_nat (length data) + 6)
    ([if ack then SOD_ACK else SOD_CMD;
      hi_byte (u16 (Z.of_nat (length data) + 1));
      lo_byte (u16 (Z.of_nat (length data) + 1)); cmd]
     ++ data ++ [ra_calc_sum cmd data; ETX]).
Proof.
  intros H1 H2. unfold ra_pack_pkt. cbv zeta.
  replace (MAX_DATA_LEN <? _) with false by (symmetry; apply Z.ltb_ge; lia).
  replace (buflen <? _) with false by (symmetry; apply Z.ltb_ge; lia).
  reflexivity.
Qed.

Lemma unpack_ok_inv (buf : list Z) (dlen : Z) :
  u_ret (ra_unpack_pkt buf) = RetOk dlen ->
  0 <= dlen /\ dlen + 6 <= Z.of_nat (length buf) /\
  byte_at buf 0 = SOD_ACK /\
  Z.lor (u16 (Z.shiftl (byte_at buf 1) 8)) (byte_at buf 2) = dlen + 1 /\
  Z.land (byte_at buf 3) STATUS_ERR = 0 /\
  byte_at buf (5 + dlen) = ETX /\
  byte_at buf (4 + dlen) = ra_calc_sum (byte_at buf 3) (slice buf 4 dlen) /\
  ra_unpack_pkt buf =
  mk_unpack_out (RetOk dlen)
    (if 0 <? dlen then Some (slice buf 4 dlen) else None) (Some dlen)
    (Some (byte_at buf 3)).
Proof.
  intros H. pose proof H as Hu. unfold ra_unpack_pkt in Hu. cbv zeta in Hu.
  set (p := Z.lor (u16 (Z.shiftl (byte_at buf 1) 8)) (byte_at buf 2)) in Hu.
  split_ifs Hu.
  all: injection Hu as <-.
  all: assert (Heq : ra_unpack_pkt buf =
                     mk_unpack_out (RetOk (p - 1))
                       (if 0 <? p - 1 then Some (slice buf 4 (p - 1)) else None)
                       (Some (p - 1)) (Some (byte_at buf 3)))
    by (unfold ra_unpack_pkt; cbv zeta; change (Z.lor _ _) with p;
        repeat match goal with E : ?c = _ |- context [?c] => rewrite E end;
        reflexivity).
  all: rewrite ?Z.ltb_ge, ?Z.ltb_lt, ?negb_false_iff, ?negb_true_iff, ?Z.eqb_eq in *.
  all: repeat split; auto; lia.
Qed.

Lemma slice_length (buf : list Z) (off n : Z) :
  0 <= off -> 0 <= n -> off + n <= Z.of_nat (length buf) ->
  length (slice buf off n) = Z.to_nat n.
Proof.
  intros. unfold slice. rewrite firstn_length_le; [reflexivity|].
  rewrite length_skipn. lia.
Qed.

(** A buffer of at least [n + 6] elements splits as header, payload,
    trailer and the bytes past the frame. *)
Lemma frame_split (buf : list Z) (n : Z) :
  0 <= n -> n + 6 <= Z.of_nat (length buf) ->
  buf = [byte_at buf 0; byte_at buf 1; byte_at buf 2; byte_at buf 3]
        ++ slice buf 4 n ++ [byte_at buf (4 + n); byte_at buf (5 + n)]
        ++ skipn (Z.to_nat (n + 6)) buf.
Proof.
  intros Hn Hl.
  destruct buf as [|b0 [|b1 [|b2 [|b3 rest]]]]; simpl in Hl; try lia.
  unfold byte_at, slice.
  replace (Z.to_nat (4 + n)) with (S (S (S (S (Z.to_nat n))))) by lia.
  replace (Z.to_nat (5 + n)) with (S (S (S (S (S (Z.to_nat n)))))) by lia.
  replace (Z.to_nat (n + 6)) with (S (S (S (S (S (S (Z.to_nat n))))))) by lia.
  simpl. do 4 f_equal.
  assert (Hr : (S (S (Z.to_nat n)) <= length rest)%nat) by lia.
  rewrite <- (firstn_skipn (Z.to_nat n) rest) at 1. f_equal.
  remember (skipn (Z.to_nat n) rest) as t eqn:Ht.
  assert (Htl : (2 <= length t)%nat) by (subst t; rewrite length_skipn; lia).
  assert (Hsk : forall k, skipn (k + Z.to_nat n) rest = skipn k t)
    by (intros k; subst t; rewrite skipn_skipn; reflexivity).
  assert (Hnth : forall k, nth (k + Z.to_nat n) rest 0 = nth k t 0).
  { intros k. subst t. rewrite nth_skipn. f_equal. lia. }
  destruct t as [|x [|y tl]]; simpl in Htl; try lia.
  pose proof (Hnth 0%nat) as H0. pose proof (Hnth 1%nat) as H1.
  simpl in H0, H1. rewrite H0, H1.
  specialize (Hsk 2%nat). simpl in Hsk. rewrite Hsk. reflexivity.
Qed.

Lemma byte_at_frame (a b c d x y : Z) (data tl : list Z) :
  let f := [a; b; c; d] ++ data ++ [x; y] ++ tl in
  byte_at f 0 = a /\ byte_at f 1 = b /\ byte_at f 2 = c /\ byte_at f 3 = d /\
  byte_at f (4 + Z.of_nat (length data)) = x /\
  byte_at f (5 + Z.of_nat (length data)) = y /\
  slice f 4 (Z.of_nat (length data)) = data /\
  slice f 1 (Z.of_nat (length data) + 4) = [b; c; d] ++ data ++ [x] /\
  length f = (length data + 6 + length tl)%nat.
Proof.
  cbv zeta. unfold byte_at, slice.
  replace (Z.to_nat (4 + Z.of_nat (length data))) with (4 + length data)%nat by lia.
  replace (Z.to_nat (5 + Z.of_nat (length data))) with (5 + length data)%nat by lia.
  replace (Z.to_nat (Z.of_nat (length data) + 4)) with (S (S (S (length data + 1)))) by lia.
  rewrite Nat2Z.id. simpl.
  repeat split; try reflexivity.
  - rewrite app_nth2, Nat.sub_diag by lia. reflexivity.
  - rewrite app_nth2 by lia.
    replace (S (length data) - length data)%nat with 1%nat by lia. reflexivity.
  - rewrite firstn_app, firstn_all, Nat.sub_diag. simpl. apply app_nil_r.
  - rewrite firstn_app, firstn_all2 by lia.
    replace (length data + 1 - length data)%nat with 1%nat by lia. reflexivity.
  - rewrite length_app. simpl. lia.
Qed.

Lemma hi_byte_range (x : Z) : is_byte (hi_byte x).
Proof. unfold is_byte, hi_byte. rewrite land255. apply Z.mod_pos_bound. lia. Qed.

Lemma lo_byte_range (x : Z) : is_byte (lo_byte x).
Proof. unfold is_byte, lo_byte. rewrite land255. apply Z.mod_pos_bound. lia. Qed.

Lemma land_status_small (x : Z) : 0 <= x < 128 -> Z.land x STATUS_ERR = 0.
Proof.
  intros H. apply Z.bits_inj'. intros n Hn. rewrite Z.land_spec, Z.bits_0.
  unfold STATUS_ERR. change 128 with (2 ^ 7).
  destruct (Z.eq_dec n 7) as [->|Hne].
  - rewrite <- (Z.mod_small x (2 ^ 7)) by (change (2 ^ 7) with 128; lia).
    rewrite Z.mod_pow2_bits_high by lia. reflexivity.
  - rewrite Z.pow2_bits_false by (intros Heq; apply Hne; symmetry; exact Heq).
    apply andb_false_r.
Qed.

Lemma forall_byte_at (buf : list Z) (i : Z) :
  Forall is_byte buf -> 0 <= i < Z.of_nat (length buf) -> is_byte (byte_at buf i).
Proof.
  intros H Hi. unfold byte_at. rewrite Forall_nth in H. apply H. lia.
Qed.

Lemma byte_at_range (buf : list Z) (i : Z) :
  Forall is_byte buf -> is_byte (byte_at buf i).
Proof.
  intros H. unfold byte_at.
  destruct (Nat.lt_ge_cases (Z.to_nat i) (length buf)).
  - rewrite Forall_nth in H. apply H. assumption.
  - rewrite nth_overflow by assumption. unfold is_byte. lia.
Qed.

Ltac decide_ifs :=
  repeat match goal with
         | |- context [if ?c then _ else _] =>
             let E := fresh "E" in
             destruct c eqn:E;
             rewrite ?negb_true_iff, ?negb_false_iff in E;
             rewrite ?Z.ltb_lt, ?Z.ltb_ge, ?Z.eqb_eq, ?Z.eqb_neq in E
         end.

End CodecFacts.

(** ** Claims on the frame codec *)
Module CodecClaims.
Import Packer WrapFacts ChecksumFacts CodecFacts.

Lemma u16_len_bytes (n : Z) :
  0 <= n <= MAX_DATA_LEN ->
  hi_byte (u16 (n + 1)) * 256 + lo_byte (u16 (n + 1)) = n + 1.
Proof.
  intros H. unfold MAX_DATA_LEN in H. rewrite u16_id by lia. apply hi_lo_bytes. lia.
Qed.

(** Unpacking a packed response frame. *)
Lemma unpack_pack (buflen cmd : Z) (data : list Z) :
  0 <= cmd < 128 ->
  Z.of_nat (length data) <= MAX_DATA_LEN ->
  Z.of_nat (length data) + 6 <= buflen ->
  exists f,
    ra_pack_pkt buflen cmd data true = PackOk (Z.of_nat (length data) + 6) f /\
    ra_unpack_pkt f =
    mk_unpack_out (RetOk (Z.of_nat (length data)))
      (if 0 <? Z.of_nat (length data) then Some data else None)
      (Some (Z.of_nat (length data))) (Some cmd).
Proof.
  intros Hc Hl Hb. rewrite pack_ok by assumption.
  eexists. split; [reflexivity|].
  set (n := Z.of_nat (length data)).
  set (h := hi_byte (u16 (n + 1))). set (l := lo_byte (u16 (n + 1))).
  destruct (byte_at_frame SOD_ACK h l cmd (ra_calc_sum cmd data) ETX data [])
    as (B0 & B1 & B2 & B3 & B4 & B5 & Bs & _ & Blen).
  fold n in B4, B5, Bs.
  assert (Hjoin : Z.lor (u16 (Z.shiftl h 8)) l = n + 1).
  { rewrite join_bytes by (apply hi_byte_range || apply lo_byte_range).
    apply u16_len_bytes. lia. }
  rewrite app_nil_r in *.
  unfold ra_unpack_pkt. cbv zeta.
  rewrite B0, B1, B2, B3, Blen, Hjoin.
  replace (n + 1 - 1) with n by ring.
  rewrite B4, B5, Bs, land_status_small by assumption.
  decide_ifs; unfold SOD_ACK, ETX in *; try lia; try congruence.
Qed.

(** Re-packing what [ra_unpack_pkt] yields from an exact response frame. *)
Lemma pack_unpack (buf : list Z) (dlen : Z) :
  Forall is_byte buf ->
  Z.of_nat (length buf) = dlen + 6 ->
  dlen <= MAX_DATA_LEN ->
  u_ret (ra_unpack_pkt buf) = RetOk dlen ->
  exists c d,
    u_cmd (ra_unpack_pkt buf) = Some c /\
    match u_data (ra_unpack_pkt buf) with Some x => x | None => [] end = d /\
    ra_pack_pkt (Z.of_nat (length buf)) c d true = PackOk (Z.of_nat (length buf)) buf.
Proof.
  intros Hby Hlen Hmax Hok.
  destruct (unpack_ok_inv buf dlen Hok) as (Hd & Hl & H0 & Hp & Hst & H5 & H4 & Heq).
  rewrite Heq. cbn [u_cmd u_data].
  exists (byte_at buf 3), (slice buf 4 dlen). split; [reflexivity|]. split.
  { destruct (0 <? dlen) eqn:E; [reflexivity|].
    rewrite Z.ltb_ge in E. replace dlen with 0 by lia. reflexivity. }
  assert (Hsl : length (slice buf 4 dlen) = Z.to_nat dlen) by (apply slice_length; lia).
  rewrite pack_ok by (rewrite Hsl; lia).
  rewrite Hsl, Z2Nat.id by lia. rewrite Hlen. f_equal.
  assert (B1 := forall_byte_at buf 1 Hby ltac:(lia)).
  assert (B2 := forall_byte_at buf 2 Hby ltac:(lia)).
  rewrite join_bytes in Hp by assumption.
  rewrite u16_id by (unfold is_byte in *; lia).
  rewrite <- Hp, hi_byte_join, lo_byte_join by assumption.
  rewrite <- H4, <- H0, <- H5.
  pose proof (frame_split buf dlen ltac:(lia) ltac:(lia)) as Hs.
  replace (skipn (Z.to_nat (dlen + 6)) buf) with (@nil Z) in Hs.
  - rewrite app_nil_r in Hs. symmetry. exact Hs.
  - symmetry. apply length_zero_iff_nil. rewrite length_skipn. lia.
Qed.

Lemma land_status_high (x : Z) : 128 <= x < 256 -> Z.land x STATUS_ERR <> 0.
Proof.
  intros H E.
  assert (Hq : x / 128 = 1) by (symmetry; apply Z.div_unique with (r := x - 128); lia).
  assert (Hb : Z.testbit x 7 = true)
    by (apply Z.testbit_true; [lia|]; change (2 ^ 7) with 128; rewrite Hq; reflexivity).
  apply (f_equal (fun z => Z.testbit z 7)) in E.
  rewrite Z.land_spec, Z.bits_0, Hb in E. discriminate E.
Qed.

(** A command frame ([ack] false) is refused by [ra_unpack_pkt]. *)
Lemma unpack_cmd_frame (buflen cmd : Z) (data : list Z) (n : Z) (f : list Z) :
  ra_pack_pkt buflen cmd data false = PackOk n f ->
  u_ret (ra_unpack_pkt f) = RetErr EPROTO.
Proof.
  intros Hp. destruct (pack_ok_inv _ _ _ _ _ _ Hp) as (_ & _ & _ & ->).
  destruct (byte_at_frame SOD_CMD (hi_byte (u16 (Z.of_nat (length data) + 1)))
              (lo_byte (u16 (Z.of_nat (length data) + 1))) cmd
              (ra_calc_sum cmd data) ETX data [])
    as (B0 & _ & _ & _ & _ & _ & _ & _ & Blen).
  rewrite app_nil_r in *.
  unfold ra_unpack_pkt. cbv zeta. rewrite B0, Blen.
  decide_ifs; unfold SOD_CMD, SOD_ACK in *; try lia; reflexivity.
Qed.

(** A response frame whose command byte has the high bit set is unpacked
    as an MCU error response: [EIO], with the payload handed back. *)
Lemma unpack_err_frame (buflen cmd : Z) (data : list Z) :
  128 <= cmd < 256 ->
  Z.of_nat (length data) <= MAX_DATA_LEN ->
  Z.of_nat (length data) + 6 <= buflen ->
  exists f,
    ra_pack_pkt buflen cmd data true = PackOk (Z.of_nat (length data) + 6) f /\
    ra_unpack_pkt f =
    mk_unpack_out (RetErr EIO)
      (if 0 <? Z.of_nat (length data) then Some data else None)
      (if 0 <? Z.of_nat (length data) then Some (Z.of_nat (length data)) else None)
      None.
Proof.
  intros Hc Hl Hb. rewrite pack_ok by assumption.
  eexists. split; [reflexivity|].
  set (n := Z.of_nat (length data)).
  set (h := hi_byte (u16 (n + 1))). set (l := lo_byte (u16 (n + 1))).
  destruct (byte_at_frame SOD_ACK h l cmd (ra_calc_sum cmd data) ETX data [])
    as (B0 & B1 & B2 & B3 & _ & _ & Bs & _ & Blen).
  fold n in Bs.
  assert (Hjoin : Z.lor (u16 (Z.shiftl h 8)) l = n + 1).
  { rewrite join_bytes by (apply hi_byte_range || apply lo_byte_range).
    apply u16_len_bytes. lia. }
  pose proof (land_status_high cmd Hc) as Hhi.
  rewrite app_nil_r in *.
  unfold ra_unpack_pkt. cbv zeta.
  rewrite B0, B1, B2, B3, Blen, Hjoin.
  replace (n + 1 - 1) with n by ring.
  rewrite Bs.
  decide_ifs; unfold SOD_ACK in *; try lia; try congruence; reflexivity.
Qed.

(** C1 (amended): for a response frame ([ack] true) whose command byte has
    its high bit clear and whose payload has at most 1024 bytes, unpacking
    the packed frame succeeds with the original payload and command byte
    (so the checksum verifies).  A command frame ([ack] false) is refused
    by [ra_unpack_pkt] with [EPROTO] (its SOD is 0x01).  A response frame
    whose command byte has the high bit set is reported as an MCU error
    response ([EIO], payload handed back, no command byte written).  And
    re-packing the command byte and payload yielded by [ra_unpack_pkt] from
    an exact well-formed response frame of at most 1024 data bytes
    reproduces that frame byte for byte. *)
Theorem pack_unpack_roundtrip :
  (forall (buflen cmd : Z) (data : list Z),
     0 <= cmd < 128 ->
     Z.of_nat (length data) <= MAX_DATA_LEN ->
     Z.of_nat (length data) + 6 <= buflen ->
     exists f,
       ra_pack_pkt buflen cmd data true = PackOk (Z.of_nat (length data) + 6) f /\
       ra_unpack_pkt f =
       mk_unpack_out (RetOk (Z.of_nat (length data)))
         (if 0 <? Z.of_nat (length data) then Some data else None)
         (Some (Z.of_nat (length data))) (Some cmd)) /\
  (forall (buf : list Z) (dlen : Z),
     Forall is_byte buf ->
     Z.of_nat (length buf) = dlen + 6 ->
     dlen <= MAX_DATA_LEN ->
     u_ret (ra_unpack_pkt buf) = RetOk dlen ->
     exists c d,
       u_cmd (ra_unpack_pkt buf) = Some c /\
       match u_data (ra_unpack_pkt buf) with Some x => x | None => [] end = d /\
       ra_pack_pkt (Z.of_nat (length buf)) c d true = PackOk (Z.of_nat (length buf)) buf) /\
  (forall (buflen cmd : Z) (data : list Z) (n : Z) (f : list Z),
     ra_pack_pkt buflen cmd data false = PackOk n f ->
     u_ret (ra_unpack_pkt f) = RetErr EPROTO) /\
  (forall (buflen cmd : Z) (data : list Z),
     128 <= cmd < 256 ->
     Z.of_nat (length data) <= MAX_DATA_LEN ->
     Z.of_nat (length data) + 6 <= buflen ->
     exists f,
       ra_pack_pkt buflen cmd data true = PackOk (Z.of_nat (length data) + 6) f /\
       ra_unpack_pkt f =
       mk_unpack_out (RetErr EIO)
         (if 0 <? Z.of_nat (length data) then Some data else None)
         (if 0 <? Z.of_nat (length data) then Some (Z.of_nat (length data)) else None)
         None).
Proof.
  split; [exact unpack_pack|]. split; [exact pack_unpack|].
  split; [exact unpack_cmd_frame | exact unpack_err_frame].
Qed.

(** C1 counterexample: a command frame ([ack] false) is refused by
    [ra_unpack_pkt] (bad SOD), and so is a response frame whose command
    byte has the high bit set (reported as an MCU error). *)
Lemma pack_unpack_roundtrip_fails :
  match ra_pack_pkt 1030 18 [] false with
  | PackOk _ f => u_ret (ra_unpack_pkt f) = RetErr EPROTO
  | PackErr _ => False
  end /\
  match ra_pack_pkt 1030 147 [0] true with
  | PackOk _ f => u_ret (ra_unpack_pkt f) = RetErr EIO
  | PackErr _ => False
  end.
Proof. split; vm_compute; reflexivity. Qed.

(** C2: [ra_calc_sum] is the two's complement of the 8-bit sum of LNH,
    LNL, the command byte and the data bytes; every frame built by
    [ra_pack_pkt] and every frame accepted by [ra_unpack_pkt] has bytes
    LNH through SUM summing to 0 modulo 256. *)
Theorem frame_checksum :
  (forall (cmd : Z) (data : list Z),
     ra_calc_sum cmd data =
     (- (hi_byte (u16 (Z.of_nat (length data) + 1))
         + lo_byte (u16 (Z.of_nat (length data) + 1)) + cmd + zsum data)) mod 256) /\
  (forall (buflen cmd : Z) (data : list Z) (ack : bool) (n : Z) (f : list Z),
     ra_pack_pkt buflen cmd data ack = PackOk n f ->
     zsum (slice f 1 (n - 2)) mod 256 = 0) /\
  (forall (buf : list Z) (dlen : Z),
     Forall is_byte buf ->
     u_ret (ra_unpack_pkt buf) = RetOk dlen ->
     zsum (slice buf 1 (dlen + 4)) mod 256 = 0).
Proof.
  split; [exact calc_sum_spec|]. split.
  - intros buflen cmd data ack n f Hp.
    destruct (pack_ok_inv _ _ _ _ _ _ Hp) as (_ & _ & -> & ->).
    destruct (byte_at_frame (if ack then SOD_ACK else SOD_CMD)
                (hi_byte (u16 (Z.of_nat (length data) + 1)))
                (lo_byte (u16 (Z.of_nat (length data) + 1))) cmd
                (ra_calc_sum cmd data) ETX data [])
      as (_ & _ & _ & _ & _ & _ & _ & Hs & _).
    rewrite app_nil_r in Hs.
    replace (Z.of_nat (length data) + 6 - 2) with (Z.of_nat (length data) + 4) by ring.
    rewrite Hs, zsum_app, zsum_app. simpl.
    etransitivity; [|apply (pack_frame_sum cmd data)]. f_equal. unfold zsum. simpl. ring.
  - intros buf dlen Hby Hok.
    destruct (unpack_ok_inv buf dlen Hok) as (Hd & Hl & _ & Hp & _ & _ & H4 & _).
    pose proof (frame_split buf dlen Hd Hl) as Hs.
    assert (Hsl : length (slice buf 4 dlen) = Z.to_nat dlen) by (apply slice_length; lia).
    destruct (byte_at_frame (byte_at buf 0) (byte_at buf 1) (byte_at buf 2) (byte_at buf 3)
                (byte_at buf (4 + dlen)) (byte_at buf (5 + dlen))
                (slice buf 4 dlen) (skipn (Z.to_nat (dlen + 6)) buf))
      as (_ & _ & _ & _ & _ & _ & _ & Hf & _).
    rewrite <- Hs, Hsl, Z2Nat.id in Hf by lia.
    rewrite Hf, zsum_app, zsum_app.
    assert (B1 := forall_byte_at buf 1 Hby ltac:(lia)).
    assert (B2 := forall_byte_at buf 2 Hby ltac:(lia)).
    rewrite join_bytes in Hp by assumption.
    rewrite H4.
    pose proof (pack_frame_sum (byte_at buf 3) (slice buf 4 dlen)) as Hz.
    rewrite Hsl, Z2Nat.id, u16_id in Hz by (unfold is_byte in *; lia).
    rewrite <- Hp, hi_byte_join, lo_byte_join in Hz by assumption.
    etransitivity; [|exact Hz]. f_equal. unfold zsum. simpl. ring.
Qed.

(** C3 (amended): [ra_pack_pkt] fails with [EINVAL] exactly when the
    payload exceeds 1024 bytes; otherwise it fails with [ENOBUFS] when the
    buffer holds fewer than [len + 6] bytes, and else returns [len + 6]
    with a frame of that length starting with 0x81 when [ack] is set and
    0x01 when it is not. *)
Theorem pack_results (buflen cmd : Z) (data : list Z) (ack : bool) :
  (ra_pack_pkt buflen cmd data ack = PackErr EINVAL <->
   MAX_DATA_LEN < Z.of_nat (length data)) /\
  (Z.of_nat (length data) <= MAX_DATA_LEN ->
   buflen < Z.of_nat (length data) + 6 ->
   ra_pack_pkt buflen cmd data ack = PackErr ENOBUFS) /\
  (Z.of_nat (length data) <= MAX_DATA_LEN ->
   Z.of_nat (length data) + 6 <= buflen ->
   exists f,
     ra_pack_pkt buflen cmd data ack = PackOk (Z.of_nat (length data) + 6) f /\
     Z.of_nat (length f) = Z.of_nat (length data) + 6 /\
     byte_at f 0 = (if ack then 129 else 1)).
Proof.
  split; [|split].
  - unfold ra_pack_pkt. cbv zeta. split.
    + decide_ifs; intros H; try discriminate; lia.
    + intros H. decide_ifs; try lia. reflexivity.
  - intros H1 H2. unfold ra_pack_pkt. cbv zeta. decide_ifs; try lia. reflexivity.
  - intros H1 H2. rewrite pack_ok by assumption. eexists. split; [reflexivity|].
    destruct (byte_at_frame (if ack then SOD_ACK else SOD_CMD)
                (hi_byte (u16 (Z.of_nat (length data) + 1)))
                (lo_byte (u16 (Z.of_nat (length data) + 1))) cmd
                (ra_calc_sum cmd data) ETX data [])
      as (B0 & _ & _ & _ & _ & _ & _ & _ & Hl).
    rewrite app_nil_r in *. rewrite Hl, B0. simpl. split; [lia|].
    destruct ack; reflexivity.
Qed.

(** C3 counterexample: a 1025-byte payload with a zero-capacity buffer is
    refused with [EINVAL], not with [ENOBUFS]. *)
Lemma pack_results_enobufs_fails :
  ra_pack_pkt 0 0 (repeat 0 1025) false = PackErr EINVAL /\
  ra_pack_pkt 0 0 (repeat 0 1025) false <> PackErr ENOBUFS.
Proof. split; [reflexivity | discriminate]. Qed.

(** C4 (amended): the outcome of [ra_unpack_pkt] on a byte buffer, with
    [L] the 16-bit length field.  Buffers under 6 bytes and truncated
    frames give [EINVAL]; a SOD other than 0x81 and a zero length field give
    [EPROTO].  A complete frame whose RES byte has the high bit set gives
    [EIO] before ETX and checksum are looked at, with the [L - 1] payload
    bytes (STS, ST2, ADR) and their count handed back when there are any.
    Otherwise an ETX other than 0x03 gives [EPROTO] and a checksum mismatch
    [EBADMSG]. *)
Theorem unpack_results (buf : list Z) (Hb : Forall is_byte buf) :
  let n := Z.of_nat (length buf) in
  let L := byte_at buf 1 * 256 + byte_at buf 2 in
  let res := byte_at buf 3 in
  (n < 6 -> u_ret (ra_unpack_pkt buf) = RetErr EINVAL) /\
  (6 <= n -> byte_at buf 0 <> SOD_ACK -> u_ret (ra_unpack_pkt buf) = RetErr EPROTO) /\
  (6 <= n -> byte_at buf 0 = SOD_ACK -> L < 1 -> u_ret (ra_unpack_pkt buf) = RetErr EPROTO) /\
  (6 <= n -> byte_at buf 0 = SOD_ACK -> 1 <= L -> n < L + 5 ->
   u_ret (ra_unpack_pkt buf) = RetErr EINVAL) /\
  (6 <= n -> byte_at buf 0 = SOD_ACK -> 1 <= L -> L + 5 <= n ->
   Z.land res STATUS_ERR <> 0 ->
   u_ret (ra_unpack_pkt buf) = RetErr EIO /\
   u_data (ra_unpack_pkt buf) = (if 0 <? L - 1 then Some (slice buf 4 (L - 1)) else None) /\
   u_data_len (ra_unpack_pkt buf) = (if 0 <? L - 1 then Some (L - 1) else None)) /\
  (6 <= n -> byte_at buf 0 = SOD_ACK -> 1 <= L -> L + 5 <= n ->
   Z.land res STATUS_ERR = 0 -> byte_at buf (4 + L) <> ETX ->
   u_ret (ra_unpack_pkt buf) = RetErr EPROTO) /\
  (6 <= n -> byte_at buf 0 = SOD_ACK -> 1 <= L -> L + 5 <= n ->
   Z.land res STATUS_ERR = 0 -> byte_at buf (4 + L) = ETX ->
   byte_at buf (3 + L) <> ra_calc_sum res (slice buf 4 (L - 1)) ->
   u_ret (ra_unpack_pkt buf) = RetErr EBADMSG).
Proof.
  cbv zeta.
  assert (Hj : Z.lor (u16 (Z.shiftl (byte_at buf 1) 8)) (byte_at buf 2)
               = byte_at buf 1 * 256 + byte_at buf 2)
    by (apply join_bytes; apply byte_at_range; exact Hb).
  unfold ra_unpack_pkt. cbv zeta. rewrite Hj.
  replace (4 + (byte_at buf 1 * 256 + byte_at buf 2 - 1))
    with (3 + (byte_at buf 1 * 256 + byte_at buf 2)) by ring.
  replace (5 + (byte_at buf 1 * 256 + byte_at buf 2 - 1))
    with (4 + (byte_at buf 1 * 256 + byte_at buf 2)) by ring.
  repeat split; intros; decide_ifs; cbn [u_ret u_data u_data_len unpack_fail];
    try reflexivity; try lia; try congruence.
Qed.

(** Witness for C4: an MCU error response with status byte 0xC3. *)
Lemma unpack_results_witness :
  Forall is_byte [129; 0; 2; 147; 195; 56; 3] /\
  u_ret (ra_unpack_pkt [129; 0; 2; 147; 195; 56; 3]) = RetErr EIO.
Proof.
  assert (Hb : Forall is_byte [129; 0; 2; 147; 195; 56; 3])
    by (repeat constructor; unfold is_byte; lia).
  split; [exact Hb|].
  destruct (unpack_results [129; 0; 2; 147; 195; 56; 3] Hb) as (_ & _ & _ & _ & H5 & _).
  cbv zeta in H5.
  apply H5; vm_compute; easy.
Defined.

(** C4 counterexample: a bad SOD and a bad ETX give the same [EPROTO]; an
    MCU error response leaves [*cmd] unwritten, and one with a bad ETX is
    reported as [EIO] without the ETX being checked. *)
Lemma unpack_results_distinct_fails :
  u_ret (ra_unpack_pkt [1; 0; 2; 0; 0; 254; 3]) = RetErr EPROTO /\
  u_ret (ra_unpack_pkt [129; 0; 2; 0; 0; 254; 255]) = RetErr EPROTO /\
  u_cmd (ra_unpack_pkt [129; 0; 2; 147; 195; 56; 3]) = None /\
  u_ret (ra_unpack_pkt [129; 0; 2; 147; 195; 56; 255]) = RetErr EIO.
Proof. repeat split; reflexivity. Qed.

(** Witness for C1: the response frame [{0x81, 0x00, 0x04, 0x15, AA BB CC,
    SUM, 0x03}] goes through pack and unpack, the same payload packed as a
    command frame is refused with [EPROTO], and packed with the command
    byte 0x93 it comes back as an MCU error. *)
Lemma pack_unpack_roundtrip_witness :
  (exists f,
     ra_pack_pkt 1030 21 [170; 187; 204] true = PackOk 9 f /\
     ra_unpack_pkt f = mk_unpack_out (RetOk 3) (Some [170; 187; 204]) (Some 3) (Some 21)) /\
  u_ret (ra_unpack_pkt [1; 0; 4; 21; 170; 187; 204; 182; 3]) = RetErr EPROTO /\
  (exists f,
     ra_pack_pkt 1030 147 [170; 187; 204] true = PackOk 9 f /\
     ra_unpack_pkt f = mk_unpack_out (RetErr EIO) (Some [170; 187; 204]) (Some 3) None).
Proof.
  destruct pack_unpack_roundtrip as (H1 & _ & H3 & H4).
  split; [|split].
  - apply (H1 1030 21 [170; 187; 204]); unfold MAX_DATA_LEN; simpl; lia.
  - apply (H3 1030 21 [170; 187; 204] 9). vm_compute. reflexivity.
  - apply (H4 1030 147 [170; 187; 204]); unfold MAX_DATA_LEN; simpl; lia.
Defined.

(** Witness for C2: the response frame [{0x81, 0x00, 0x04, 0x15, AA BB CC,
    0xB6, 0x03}]; its checksum is computed, it is built by pack, and it is
    accepted by unpack, and in both readings LNH through SUM sum to 0
    modulo 256. *)
Lemma frame_checksum_witness :
  ra_calc_sum 21 [170; 187; 204] = 182 /\
  ra_pack_pkt 1030 21 [170; 187; 204] true = PackOk 9 [129; 0; 4; 21; 170; 187; 204; 182; 3] /\
  u_ret (ra_unpack_pkt [129; 0; 4; 21; 170; 187; 204; 182; 3]) = RetOk 3 /\
  zsum (slice [129; 0; 4; 21; 170; 187; 204; 182; 3] 1 (9 - 2)) mod 256 = 0 /\
  zsum (slice [129; 0; 4; 21; 170; 187; 204; 182; 3] 1 (3 + 4)) mod 256 = 0.
Proof.
  destruct frame_checksum as (Hc & Hp & Hu).
  assert (H : ra_pack_pkt 1030 21 [170; 187; 204] true
              = PackOk 9 [129; 0; 4; 21; 170; 187; 204; 182; 3])
    by (vm_compute; reflexivity).
  assert (Hr : u_ret (ra_unpack_pkt [129; 0; 4; 21; 170; 187; 204; 182; 3]) = RetOk 3)
    by (vm_compute; reflexivity).
  split; [rewrite Hc; vm_compute; reflexivity|].
  split; [exact H|]. split; [exact Hr|]. split.
  - exact (Hp _ _ _ _ _ _ H).
  - apply (Hu _ 3); [repeat constructor; unfold is_byte; lia | exact Hr].
Defined.

(** Witness for C3: a one-byte command frame. *)
Lemma pack_results_witness :
  exists f, ra_pack_pkt 1030 0 [7] false = PackOk 7 f /\
    Z.of_nat (length f) = 7 /\ byte_at f 0 = 1.
Proof.
  apply (proj2 (proj2 (pack_results 1030 0 [7] false))); unfold MAX_DATA_LEN; simpl; lia.
Defined.

End CodecClaims.

(** ** Area lookup and boundary computations *)
Module AreaClaims.
Import Areas WrapFacts CodecFacts.


Lemma find_from_result (layout : list ra_area) (addr : Z) (fuel i : nat) :
  (find_from layout addr i fuel = -1 /\
   forall j, (i <= j < i + fuel)%nat -> ~ in_area (area_at layout j) addr) \/
  (exists k, find_from layout addr i fuel = Z.of_nat k /\ (i <= k < i + fuel)%nat /\
   in_area (area_at layout k) addr /\
   forall j, (i <= j < k)%nat -> ~ in_area (area_at layout j) addr).
Proof.
  revert i. induction fuel as [|fuel IH]; intros i; simpl.
  - left. split; [reflexivity | intros j Hj; lia].
  - unfold in_area.
    destruct ((sad (area_at layout i) =? 0) && (ead (area_at layout i) =? 0)) eqn:E0.
    + apply andb_true_iff in E0. rewrite !Z.eqb_eq in E0.
      destruct (IH (S i)) as [[H1 H2] | (k & H1 & H2 & H3 & H4)].
      * left. split; [exact H1|]. intros j Hj.
        destruct (Nat.eq_dec j i) as [->|]; [tauto | apply H2; lia].
      * right. exists k. split; [exact H1|]. split; [lia|]. split; [exact H3|].
        intros j Hj. destruct (Nat.eq_dec j i) as [->|]; [tauto | apply H4; lia].
    + apply andb_false_iff in E0. rewrite !Z.eqb_neq in E0.
      destruct ((sad (area_at layout i) <=? addr) && (addr <=? ead (area_at layout i))) eqn:E1.
      * apply andb_true_iff in E1. rewrite !Z.leb_le in E1.
        right. exists i. split; [reflexivity|]. split; [lia|]. split; [tauto|].
        intros j Hj. lia.
      * apply andb_false_iff in E1. rewrite !Z.leb_gt in E1.
        destruct (IH (S i)) as [[H1 H2] | (k & H1 & H2 & H3 & H4)].
        -- left. split; [exact H1|]. intros j Hj.
           destruct (Nat.eq_dec j i) as [->|]; [lia | apply H2; lia].
        -- right. exists k. split; [exact H1|]. split; [lia|]. split; [exact H3|].
           intros j Hj. destruct (Nat.eq_dec j i) as [->|]; [lia | apply H4; lia].
Qed.

(** C10: [find_area_for_address] returns the lowest index [i < 4] whose
    slot is not the empty sentinel (SAD = EAD = 0) and whose inclusive
    range holds the address, and [-1] when there is none; so the result is
    never a slot with SAD = EAD = 0, even one that would hold address 0. *)
Theorem find_area_first_match (layout : list ra_area) (addr : Z) :
  (forall i, (i < MAX_AREAS)%nat ->
     (find_area_for_address layout addr = Z.of_nat i <->
      in_area (area_at layout i) addr /\
      forall j, (j < i)%nat -> ~ in_area (area_at layout j) addr)) /\
  (find_area_for_address layout addr = -1 <->
   forall j, (j < MAX_AREAS)%nat -> ~ in_area (area_at layout j) addr) /\
  (forall i, find_area_for_address layout addr = Z.of_nat i ->
     ~ (sad (area_at layout i) = 0 /\ ead (area_at layout i) = 0)).
Proof.
  unfold find_area_for_address.
  destruct (find_from_result layout addr MAX_AREAS 0)
    as [[H1 H2] | (k & H1 & H2 & H3 & H4)]; rewrite H1.
  - split; [|split].
    + intros i Hi. split; [lia|]. intros [Hin _]. exfalso. exact (H2 i ltac:(lia) Hin).
    + split; [intros _ j Hj; apply H2; lia | reflexivity].
    + intros i Hi. lia.
  - split; [|split].
    + intros i Hi. split.
      * intros Hk. apply Nat2Z.inj in Hk. subst k. split; [exact H3|].
        intros j Hj. apply H4. lia.
      * intros [Hin Hmin]. f_equal.
        destruct (Nat.lt_total k i) as [Hlt | [Heq | Hgt]].
        -- exfalso. exact (Hmin k Hlt H3).
        -- exact Heq.
        -- exfalso. exact (H4 i ltac:(lia) Hin).
    + split; [lia|]. intros H. exfalso. exact (H k ltac:(lia) H3).
    + intros i Hi. apply Nat2Z.inj in Hi. subst k. apply H3.
Qed.


(** Witness for C10: address 0 skips the empty slot 0 and resolves to the
    area [0, 0xFFF] of slot 1. *)
Lemma find_area_first_match_witness :
  find_area_for_address [empty_area; mk_area 0 0 4095 0 0 0 0] 0 = 1 /\
  in_area (area_at [empty_area; mk_area 0 0 4095 0 0 0 0] 1) 0.
Proof.
  assert (H : find_area_for_address [empty_area; mk_area 0 0 4095 0 0 0 0] 0 = Z.of_nat 1)
    by (vm_compute; reflexivity).
  split; [exact H|].
  exact (proj1 (proj1 (proj1 (find_area_first_match [empty_area; mk_area 0 0 4095 0 0 0 0] 0)
                        1%nat ltac:(unfold MAX_AREAS; lia)) H)).
Defined.

Ltac split_ifs_opt H :=
  repeat match type of H with
         | context [if ?c then _ else _] =>
             let E := fresh "E" in destruct c eqn:E
         end;
  try discriminate.

(** Facts about the [uint32_t] wrap-around used by the boundary proofs. *)
Lemma u32_range (x : Z) : 0 <= u32 x < 4294967296.
Proof. unfold u32. apply Z.mod_pos_bound. lia. Qed.

Lemma u32_minus_one : u32 (-1) = 4294967295.
Proof. reflexivity. Qed.

Lemma u32_high (x : Z) : 4294967296 <= x < 2 * 4294967296 -> u32 x = x - 4294967296.
Proof.
  intros H. unfold u32.
  replace x with ((x - 4294967296) + 1 * 4294967296) at 1 by ring.
  rewrite Z_mod_plus_full. apply Z.mod_small. lia.
Qed.


Lemma block_end_ok (unit ead start size e : Z) :
  0 <= start < 4294967296 -> 0 <= size < 4294967296 ->
  unit_fits unit ead -> unit <> 0 -> start mod unit = 0 ->
  e = u32 (u32 (size + unit - 1) / unit * unit + start - 1) ->
  start < e -> e <= ead ->
  (e - start + 1) mod unit = 0.
Proof.
  unfold unit_fits. intros Hs Hz [He [Hu Hfit]] Hu0 Hal -> Hlt Hle.
  assert (Hpos : 0 < unit) by lia.
  set (B := u32 (size + unit - 1)) in *.
  assert (HB := u32_range (size + unit - 1)). fold B in HB.
  set (blocks := B / unit) in *.
  assert (Hb0 : 0 <= blocks) by (apply Z.div_pos; lia).
  assert (HP : blocks * unit <= B)
    by (rewrite Z.mul_comm; apply Z.mul_div_le; lia).
  assert (HP0 : 0 <= blocks * unit) by lia.
  set (P := blocks * unit) in *.
  destruct (Z_lt_le_dec (P + start - 1) 0) as [Hneg | Hnn].
  - replace (P + start - 1) with (-1) in * by lia.
    rewrite u32_minus_one in *.
    assert (unit = 1) as -> by lia. apply Z.mod_1_r.
  - destruct (Z_lt_le_dec (P + start - 1) 4294967296) as [Hsm | Hbig].
    + rewrite u32_id in * by lia.
      replace (P + start - 1 - start + 1) with P by ring.
      apply Z.mod_mul. exact Hu0.
    + rewrite u32_high in Hlt by lia. lia.
Qed.

Lemma erase_inv (layout : list ra_area) (start size : Z) (i : nat) (e : Z) :
  set_erase_boundaries layout start size = Some (i, e) ->
  let a := area_at layout i in
  eau a <> 0 /\ start mod eau a = 0 /\
  e = u32 (u32 (size + eau a - 1) / eau a * eau a + start - 1) /\
  start < e /\ e <= ead a.
Proof.
  unfold set_erase_boundaries. cbv zeta. intros H.
  split_ifs_opt H.
  injection H as <- <-.
  rewrite ?negb_false_iff, ?Z.ltb_ge, ?Z.leb_gt, ?Z.eqb_eq, ?Z.eqb_neq in *.
  repeat split; auto; lia.
Qed.

Lemma write_inv (layout : list ra_area) (start size : Z) (i : nat) (e : Z) :
  set_write_boundaries layout start size = Some (i, e) ->
  let a := area_at layout i in
  wau a <> 0 /\ start mod wau a = 0 /\
  e = u32 (u32 (size + wau a - 1) / wau a * wau a + start - 1) /\
  start < e /\ e <= ead a.
Proof.
  unfold set_write_boundaries. cbv zeta. intros H.
  split_ifs_opt H.
  injection H as <- <-.
  rewrite ?negb_false_iff, ?Z.ltb_ge, ?Z.leb_gt, ?Z.eqb_eq, ?Z.eqb_neq in *.
  repeat split; auto; lia.
Qed.


Lemma read_end0 (start size : Z) :
  0 <= start < 4294967296 -> 1 <= size < 4294967296 ->
  ((u32 (start + size - 1) <=? start) && (1 <? size)) = false ->
  u32 (start + size - 1) = start + size - 1.
Proof.
  intros Hs Hz H.
  destruct (Z_lt_le_dec (start + size - 1) 4294967296).
  - apply u32_id. lia.
  - rewrite u32_high in H by lia.
    apply andb_false_iff in H. rewrite Z.leb_gt, Z.ltb_ge in H. lia.
Qed.

Lemma sub_aligned_mod (x start unit : Z) :
  unit <> 0 -> x mod unit = 0 -> start mod unit = 0 -> (x - start) mod unit = 0.
Proof.
  intros Hu Hx Hs. rewrite Zminus_mod, Hx, Hs. reflexivity.
Qed.

Lemma read_end_ok (layout : list ra_area) (start size : Z) (i : nat) (e : Z) :
  0 <= start < 4294967296 -> 1 <= size < 4294967296 ->
  set_read_boundaries layout start size = Some (i, e) ->
  unit_fits (rau (area_at layout i)) (ead (area_at layout i)) ->
  let a := area_at layout i in
  start mod rau a = 0 /\ start <= e <= ead a /\
  (((e + 1) mod rau a = 0 /\ (e - start + 1) mod rau a = 0) \/ e = ead a).
Proof.
  intros Hs Hz H. unfold set_read_boundaries in H. cbv zeta in H.
  destruct (find_area_for_address layout start <? 0); [discriminate|].
  remember (area_at layout (Z.to_nat (find_area_for_address layout start))) as a eqn:Ha.
  destruct (rau a =? 0) eqn:R; [discriminate|].
  destruct (negb (start mod rau a =? 0)) eqn:A; [discriminate|].
  destruct ((u32 (start + size - 1) <=? start) && (1 <? size)) eqn:C; [discriminate|].
  pose proof (read_end0 start size Hs Hz C) as He0.
  set (e0 := u32 (start + size - 1)) in *.
  destruct (ead a <? e0) eqn:D; [discriminate|].
  injection H as Hi He. subst i. rewrite <- Ha. cbv zeta.
  unfold unit_fits. intros [Hea [Hr Hfit]].
  rewrite negb_false_iff, Z.eqb_eq in A. rewrite Z.eqb_neq in R.
  rewrite Z.ltb_ge in D.
  assert (Hpos : 0 < rau a) by lia.
  split; [exact A|].
  (* [u32 (end + 1)] is [end + 1] unless [rau = 1]. *)
  assert (Hinc : u32 (e0 + 1) mod rau a = (e0 + 1) mod rau a).
  { destruct (Z_lt_le_dec (e0 + 1) 4294967296).
    - rewrite u32_id by lia. reflexivity.
    - assert (rau a = 1) as -> by lia. rewrite !Z.mod_1_r. reflexivity. }
  rewrite Hinc in He.
  destruct (negb ((e0 + 1) mod rau a =? 0)) eqn:G.
  - (* end rounded up to the next read unit, then clamped to EAD *)
    pose proof (Z.div_mod e0 (rau a) R) as Hdm.
    pose proof (Z.mod_pos_bound e0 (rau a) Hpos) as Hmb.
    set (q := e0 / rau a) in *.
    assert (Hal : (q + 1) * rau a - 1 = rau a * q + rau a - 1) by ring.
    rewrite Hal in He.
    rewrite (u32_id (rau a * q + rau a - 1)) in He by lia.
    destruct (ead a <? rau a * q + rau a - 1) eqn:F.
    + rewrite Z.ltb_lt in F.
      destruct (ead a =? e0) eqn:Q; simpl in He; subst e; rewrite ?Z.eqb_eq in Q;
        split; try lia; right; lia.
    + rewrite Z.ltb_ge in F.
      destruct (rau a * q + rau a - 1 =? e0) eqn:Q; simpl in He; rewrite ?Z.eqb_eq in Q;
        subst e; split; try lia; left.
      * rewrite <- Q.
        replace (rau a * q + rau a - 1 + 1) with ((q + 1) * rau a) by ring.
        rewrite Z.mod_mul by exact R. split; [reflexivity|].
        replace (rau a * q + rau a - 1 - start + 1) with ((q + 1) * rau a - start) by ring.
        apply sub_aligned_mod; [exact R | apply Z.mod_mul; exact R | exact A].
      * replace (rau a * q + rau a - 1 + 1) with ((q + 1) * rau a) by ring.
        rewrite Z.mod_mul by exact R. split; [reflexivity|].
        replace (rau a * q + rau a - 1 - start + 1) with ((q + 1) * rau a - start) by ring.
        apply sub_aligned_mod; [exact R | apply Z.mod_mul; exact R | exact A].
  - (* end already aligned *)
    rewrite negb_false_iff, Z.eqb_eq in G. subst e.
    split; [lia|]. left. split; [exact G|].
    replace (e0 - start + 1) with (e0 + 1 - start) by ring.
    apply sub_aligned_mod; assumption.
Qed.


(** Claim C5 (amended). Take [0 <= start, size < 2^32] and an area whose
    unit is non-negative and whose [EAD] plus one unit still fits in 32
    bits. When erase or write boundaries are accepted with unit [A], then
    [start % A = 0], [start < end <= EAD] and [(end - start + 1) % A = 0].
    When read boundaries are accepted for [size >= 1], then
    [start % RAU = 0] and [start <= end <= EAD]. Moreover either [end] is
    RAU-aligned ([(end + 1) % RAU = 0] and [(end - start + 1) % RAU = 0])
    or [end] was clamped to [EAD]. *)
Theorem boundaries_aligned (layout : list ra_area) (start size : Z) (i : nat) (e : Z)
  (Hs : 0 <= start < 4294967296) (Hz : 0 <= size < 4294967296) :
  (set_erase_boundaries layout start size = Some (i, e) ->
   unit_fits (eau (area_at layout i)) (ead (area_at layout i)) ->
   start mod eau (area_at layout i) = 0 /\ start < e <= ead (area_at layout i) /\
   (e - start + 1) mod eau (area_at layout i) = 0) /\
  (set_write_boundaries layout start size = Some (i, e) ->
   unit_fits (wau (area_at layout i)) (ead (area_at layout i)) ->
   start mod wau (area_at layout i) = 0 /\ start < e <= ead (area_at layout i) /\
   (e - start + 1) mod wau (area_at layout i) = 0) /\
  (1 <= size ->
   set_read_boundaries layout start size = Some (i, e) ->
   unit_fits (rau (area_at layout i)) (ead (area_at layout i)) ->
   start mod rau (area_at layout i) = 0 /\ start <= e <= ead (area_at layout i) /\
   (((e + 1) mod rau (area_at layout i) = 0 /\
     (e - start + 1) mod rau (area_at layout i) = 0) \/
    e = ead (area_at layout i))).
Proof.
  split; [|split].
  - intros H Hf. destruct (erase_inv layout start size i e H) as (H0 & H1 & H2 & H3 & H4).
    split; [exact H1|]. split; [lia|].
    exact (block_end_ok _ _ start size e Hs Hz Hf H0 H1 H2 H3 H4).
  - intros H Hf. destruct (write_inv layout start size i e H) as (H0 & H1 & H2 & H3 & H4).
    split; [exact H1|]. split; [lia|].
    exact (block_end_ok _ _ start size e Hs Hz Hf H0 H1 H2 H3 H4).
  - intros Hz1 H Hf. exact (read_end_ok layout start size i e Hs (conj Hz1 (proj2 Hz)) H Hf).
Qed.

(** Witness for C5: a 1 KiB area with 4-byte units; a 101-byte read from 0
    is rounded up to end 103. *)
Lemma boundaries_aligned_witness :
  set_read_boundaries [mk_area 0 0 1023 4 4 4 0] 0 101 = Some (0%nat, 103) /\
  0 mod 4 = 0 /\ 0 <= 103 <= 1023 /\
  (((103 + 1) mod 4 = 0 /\ (103 - 0 + 1) mod 4 = 0) \/ 103 = 1023).
Proof.
  assert (Hr : set_read_boundaries [mk_area 0 0 1023 4 4 4 0] 0 101 = Some (0%nat, 103))
    by (vm_compute; reflexivity).
  split; [exact Hr|].
  refine (proj2 (proj2 (boundaries_aligned [mk_area 0 0 1023 4 4 4 0] 0 101 0 103 _ _))
            _ Hr _).
  - lia.
  - lia.
  - lia.
  - unfold unit_fits. simpl. lia.
Defined.

(** Counterexample for C5. A read whose end is clamped to [EAD] need not
    cover a whole number of read units: with [EAD = 257] and [RAU = 4], a
    257-byte read from 0 ends at 257 and covers 258 bytes. A read of size
    0 is accepted with an end below its start. An erase with [EAU = 3] in
    an area that reaches [0xFFFFFFFF] wraps to end [0xFFFFFFFF], which
    covers [2^32] bytes, not a multiple of 3. *)
Lemma boundaries_aligned_fails :
  set_read_boundaries [mk_area 0 0 257 0 0 4 0] 0 257 = Some (0%nat, 257) /\
  (257 - 0 + 1) mod 4 <> 0 /\
  set_read_boundaries [mk_area 0 0 262143 0 0 4 0] 4 0 = Some (0%nat, 3) /\
  set_erase_boundaries [mk_area 0 0 4294967295 3 0 0 0] 0 0 = Some (0%nat, 4294967295) /\
  (4294967295 - 0 + 1) mod 3 <> 0.
Proof.
  repeat split; vm_compute; first [reflexivity | discriminate].
Qed.

End AreaClaims.

(** ** Chunked read and verify *)
Module ChunkClaims.
Import Areas Chunks WrapFacts.


Lemma nr_chunks_small (start end_ : Z) :
  0 <= end_ - start + 1 -> end_ - start + 1 + 1023 < 4294967296 ->
  nr_chunks start end_ = (end_ - start + 1 + 1023) / 1024.
Proof.
  intros H1 H2. unfold nr_chunks, CHUNK_SIZE.
  rewrite (u32_id (end_ - start + 1)) by lia.
  rewrite (u32_id (end_ - start + 1 + 1024 - 1)) by lia.
  f_equal. ring.
Qed.

Section Verify.
Variable mem : Z -> Z.
Variable file : list Z.
Variable start : Z.

Lemma verify_spec_app (a b k : nat) :
  verify_spec mem file start k (a + b)
  = match verify_spec mem file start k a with
    | VerifyOk => verify_spec mem file start (k + a) b
    | r => r
    end.
Proof.
  revert k. induction a as [|a IH]; intros k; simpl.
  - rewrite Nat.add_0_r. reflexivity.
  - destruct (nth_error file k) as [d|];
      destruct (mem (u32 (start + Z.of_nat k)) =? _);
      try reflexivity; rewrite IH, Nat.add_succ_r; reflexivity.
Qed.

Lemma verify_stop_app (a b k : nat) :
  verify_stop (verify_spec mem file start k (a + b))
  = match verify_stop (verify_spec mem file start k a) with
    | None => verify_stop (verify_spec mem file start (k + a) b)
    | Some r => Some r
    end.
Proof.
  rewrite verify_spec_app. destruct (verify_spec mem file start k a); reflexivity.
Qed.

Section Chunk.
Variable cur : Z.
Variable k : nat.
Variable flash : list Z.
Hypothesis Hcur : cur = start + Z.of_nat k.
Hypothesis Hflash : forall i, (i < length flash)%nat ->
  nth i flash 0 = mem (u32 (cur + Z.of_nat i)).

Lemma chunk_addr (j : nat) : u32 (cur + Z.of_nat j) = u32 (start + Z.of_nat (k + j)).
Proof. rewrite Hcur, Nat2Z.inj_add. f_equal. ring. Qed.

Lemma cmp_loop_spec (fuel j : nat) :
  (j + fuel <= length flash)%nat -> (k + j + fuel <= length file)%nat ->
  cmp_loop cur (Z.of_nat k) flash file j fuel
  = verify_stop (verify_spec mem file start (k + j) fuel).
Proof.
  revert j. induction fuel as [|fuel IH]; intros j H1 H2; [reflexivity|].
  cbn [cmp_loop verify_spec]. rewrite Nat2Z.id.
  rewrite (nth_error_nth' file 0) by lia.
  rewrite Hflash by lia. rewrite chunk_addr.
  destruct (mem (u32 (start + Z.of_nat (k + j))) =? nth (k + j) file 0); simpl.
  - rewrite IH by lia. rewrite Nat.add_succ_r. reflexivity.
  - reflexivity.
Qed.

Lemma ff_loop_spec (fuel j : nat) :
  (j + fuel <= length flash)%nat -> (length file <= k + j)%nat ->
  ff_loop cur flash j fuel = verify_stop (verify_spec mem file start (k + j) fuel).
Proof.
  revert j. induction fuel as [|fuel IH]; intros j H1 H2; [reflexivity|].
  cbn [ff_loop verify_spec].
  assert (Hn : nth_error file (k + j) = None) by (apply nth_error_None; lia).
  rewrite Hn, Hflash by lia. rewrite chunk_addr.
  destruct (mem (u32 (start + Z.of_nat (k + j))) =? 255); simpl.
  - rewrite IH by lia. rewrite Nat.add_succ_r. reflexivity.
  - reflexivity.
Qed.

End Chunk.
End Verify.




Lemma flash_device_chunk (mem : Z -> Z) (cur cs : Z) :
  0 <= cur -> 1 <= cs <= 1024 -> cur + cs - 1 < 4294967296 ->
  exists flash, flash_device mem cur (u32 (cur + cs - 1)) = Some flash /\
    length flash = Z.to_nat cs /\
    (forall i, (i < length flash)%nat -> nth i flash 0 = mem (u32 (cur + Z.of_nat i))).
Proof.
  intros H0 H1 H2. unfold flash_device.
  rewrite (u32_id (cur + cs - 1)) by lia.
  replace (cur + cs - 1 - cur + 1) with cs by ring.
  rewrite (u32_id cs) by lia.
  eexists. split; [reflexivity|]. rewrite length_map, length_seq.
  split; [reflexivity|]. intros i Hi.
  rewrite nth_indep with (d' := (fun k : nat => mem (u32 (cur + Z.of_nat k))) 0%nat)
    by (rewrite length_map, length_seq; lia).
  pose proof (map_nth (fun k : nat => mem (u32 (cur + Z.of_nat k))) (seq 0 (Z.to_nat cs)) 0%nat i)
    as Hm.
  cbv beta in Hm. rewrite Hm, seq_nth by lia. reflexivity.
Qed.

Lemma verify_loop_spec (mem : Z -> Z) (file : list Z) (start end_ : Z) :
  Z.of_nat (length file) < 4294967296 -> 0 <= start -> end_ < 4294967296 ->
  forall (n : nat) (k : nat),
  let cur := start + Z.of_nat k in
  let R := end_ - cur + 1 in
  0 <= R -> R < 4294967296 ->
  1024 * Z.of_nat n - 1024 < R <= 1024 * Z.of_nat n ->
  verify_loop (flash_device mem) file end_ cur
    (Z.min (Z.of_nat k) (Z.of_nat (length file))) n
  = verify_spec mem file start k (Z.to_nat R).
Proof.
  intros Hf Hs He n. induction n as [|n IH]; intros k; cbv zeta; intros HR0 HR1 Hn.
  - simpl. replace (Z.to_nat (end_ - (start + Z.of_nat k) + 1)) with 0%nat by lia.
    reflexivity.
  - rewrite Nat2Z.inj_succ in Hn.
    set (cur := start + Z.of_nat k) in *.
    cbn [verify_loop]. unfold chunk_bounds. cbv zeta.
    rewrite (u32_id (end_ - cur + 1)) by lia.
    set (cs := if CHUNK_SIZE <? end_ - cur + 1 then CHUNK_SIZE else end_ - cur + 1).
    assert (Hcs : cs = Z.min 1024 (end_ - cur + 1)).
    { unfold cs, CHUNK_SIZE. destruct (1024 <? end_ - cur + 1) eqn:E;
        [rewrite Z.ltb_lt in E | rewrite Z.ltb_ge in E]; lia. }
    destruct (flash_device_chunk mem cur cs ltac:(lia) ltac:(lia) ltac:(lia))
      as (flash & Hdev & Hlen & Hnth).
    rewrite Hdev, Hlen, Z2Nat.id by lia.
    set (c := Z.to_nat (Z.min (Z.of_nat (length file) - Z.min (Z.of_nat k) (Z.of_nat (length file))) cs)).
    (* the remaining bytes split into the compared part, the 0xFF part and the rest *)
    replace (Z.to_nat (end_ - cur + 1))
      with (c + (Z.to_nat cs - c) + Z.to_nat (end_ - cur + 1 - cs))%nat by lia.
    rewrite !verify_spec_app.
    assert (Hcmp : cmp_loop cur (Z.min (Z.of_nat k) (Z.of_nat (length file))) flash file 0 c
                   = verify_stop (verify_spec mem file start (k + 0) c)).
    { destruct (Nat.lt_ge_cases k (length file)) as [Hk | Hk].
      - replace (Z.min (Z.of_nat k) (Z.of_nat (length file))) with (Z.of_nat k) by lia.
        apply (cmp_loop_spec mem file start cur k flash); [reflexivity | exact Hnth | lia | lia].
      - replace c with 0%nat by lia. reflexivity. }
    rewrite Nat.add_0_r in Hcmp. rewrite Hcmp.
    destruct (verify_spec mem file start k c) eqn:Ev; cbn [verify_stop]; try reflexivity.
    assert (Hff : (if Z.min (Z.of_nat (length file) - Z.min (Z.of_nat k) (Z.of_nat (length file))) cs <? cs
                   then ff_loop cur flash c (Z.to_nat (cs - Z.min (Z.of_nat (length file)
                          - Z.min (Z.of_nat k) (Z.of_nat (length file))) cs))
                   else None)
                  = verify_stop (verify_spec mem file start (k + c) (Z.to_nat cs - c))).
    { destruct (_ <? cs) eqn:Elt; [rewrite Z.ltb_lt in Elt | rewrite Z.ltb_ge in Elt].
      - replace (Z.to_nat (cs - _)) with (Z.to_nat cs - c)%nat by lia.
        apply (ff_loop_spec mem file start cur k flash); [reflexivity | exact Hnth | lia | lia].
      - replace (Z.to_nat cs - c)%nat with 0%nat by lia. reflexivity. }
    rewrite Hff.
    destruct (verify_spec mem file start (k + c) (Z.to_nat cs - c)) eqn:Ev2;
      cbn [verify_stop]; try reflexivity.
    replace (k + c + (Z.to_nat cs - c))%nat with (k + Z.to_nat cs)%nat by lia.
    destruct (Nat.eq_dec n 0) as [-> | Hn0].
    + replace (Z.to_nat (end_ - cur + 1 - cs)) with 0%nat by lia. reflexivity.
    + rewrite (u32_id (cur + cs)) by lia.
      rewrite u32_id by lia.
      specialize (IH (k + Z.to_nat cs)%nat). cbv zeta in IH.
      replace (cur + cs) with (start + Z.of_nat (k + Z.to_nat cs)) by lia.
      replace (Z.min (Z.of_nat k) (Z.of_nat (length file)) + Z.min (Z.of_nat (length file)
                 - Z.min (Z.of_nat k) (Z.of_nat (length file))) cs)
        with (Z.min (Z.of_nat (k + Z.to_nat cs)) (Z.of_nat (length file))) by lia.
      rewrite IH by lia. f_equal; rewrite ?Nat2Z.inj_add, ?Z2Nat.id by lia; unfold cur; lia.
Qed.

(** Claim C7, outside the wrap of the chunk count (see
    [verify_first_difference_fails] for the wrap). Let the device answer
    every REA request with the flash
    contents [mem] of the requested range. Take a verified range
    [start, end] of [N] bytes inside the 32-bit address space with
    [N + 1023 < 2^32], and a parsed file of fewer than [2^32] bytes. Then [ra_verify]'s chunk loop
    gives the result of [verify_spec]. That reference walks
    [k = 0 .. N - 1] in order and compares flash byte [start + k] against
    file byte [k], or against [0xFF] once [k] is past the end of the file.
    At the first difference it stops with the address, the flash value
    and the file value ([VerifyMismatch]), or with the address and the
    flash value ([VerifyNotFF]). No later byte is looked at. *)
Theorem verify_first_difference (mem : Z -> Z) (file : list Z) (start end_ : Z)
  (Hf : Z.of_nat (length file) < 4294967296)
  (Hs : 0 <= start) (He : end_ < 4294967296)
  (HN : 0 <= end_ - start + 1) (Hfit : end_ - start + 1 + 1023 < 4294967296) :
  ra_verify_loop (flash_device mem) file start end_
  = verify_spec mem file start 0 (Z.to_nat (end_ - start + 1)).
Proof.
  unfold ra_verify_loop. rewrite nr_chunks_small by lia.
  set (N := end_ - start + 1) in *.
  pose proof (Z.div_mod (N + 1023) 1024 ltac:(lia)) as Hdm.
  pose proof (Z.mod_pos_bound (N + 1023) 1024 ltac:(lia)) as Hmb.
  assert (Hq : 0 <= (N + 1023) / 1024) by (apply Z.div_pos; lia).
  pose proof (verify_loop_spec mem file start end_ Hf Hs He
                (Z.to_nat ((N + 1023) / 1024)) 0) as H.
  cbv zeta in H. rewrite Z.add_0_r, Z.min_l in H by lia.
  rewrite Z2Nat.id in H by lia. apply H; lia.
Qed.

(** Witness for C7: a 2000-byte verify of erased flash against a
    1500-byte file whose byte 1200 differs from [0xFF]. *)
Lemma verify_first_difference_witness :
  ra_verify_loop (flash_device (fun _ => 255))
    (repeat 255 1200 ++ [0] ++ repeat 255 299) 4096 6095
  = verify_spec (fun _ => 255) (repeat 255 1200 ++ [0] ++ repeat 255 299) 4096 0 2000.
Proof.
  apply (verify_first_difference (fun _ => 255) (repeat 255 1200 ++ [0] ++ repeat 255 299)
           4096 6095); vm_compute; congruence.
Defined.

(** Counterexample for C7: an area [0, 0xFFFFFFFF] with [RAU = 0xFFFFFFFF]
    accepts a one-byte verify from 0 and rounds its end up to
    [0xFFFFFFFE]. The chunk count [(total_size + 1023) / 1024] wraps in 32
    bits to 0, so [ra_verify] reports success without reading anything,
    although the flash byte at 0 differs from the file's only byte. *)
Lemma verify_first_difference_fails :
  Areas.set_read_boundaries [mk_area 0 0 4294967295 0 0 4294967295 0] 0 1
    = Some (0%nat, 4294967294) /\
  nr_chunks 0 4294967294 = 0 /\
  ra_verify_loop (flash_device (fun _ => 0)) [1] 0 4294967294 = VerifyOk /\
  verify_spec (fun _ => 0) [1] 0 0 1 = VerifyMismatch 0 0 1.
Proof. repeat split; vm_compute; reflexivity. Qed.

End ChunkClaims.

(** ** DLM transition *)
Module DlmClaims.
Import Packer Dlm Dlm.Cli String.

(** Counterexample for C8: [ra_dlm_transit] makes no host check of the
    (current, destination) pair. A device in DPL asked for SSD
    ([dlm-transit ssd]) is sent the DLM_TRANSIT request [{DPL, SSD}], a
    pair outside the allowed list of src/radfu.h. From SSD,
    [ra_dlm_transit] also sends [{SSD, RMA_REQ}]; only the command line,
    which has no [rma_req] state, keeps that request from being made. *)
Lemma dlm_transit_requests_fails :
  dlm_transit_arg "ssd"%string = Some DLM_STATE_SSD /\
  allowed_unauth DLM_STATE_DPL DLM_STATE_SSD = false /\
  ra_dlm_transit (Some DLM_STATE_DPL) DLM_STATE_SSD
    = [[1; 0; 1; 44; 211; 3]; [1; 0; 3; 113; 4; 2; 134; 3]] /\
  allowed_unauth DLM_STATE_SSD DLM_STATE_RMA_REQ = false /\
  ra_dlm_transit (Some DLM_STATE_SSD) DLM_STATE_RMA_REQ
    = [[1; 0; 1; 44; 211; 3]; [1; 0; 3; 113; 2; 7; 131; 3]] /\
  dlm_transit_arg "rma_req"%string = None.
Proof.
  repeat split; vm_compute; reflexivity.
Qed.

End DlmClaims.

(** ** Baud-rate selection *)
Module BaudClaims.
Import Baud.

Lemma first_le_spec (rs : list Z) (max : Z) :
  StronglySorted (fun a b => b < a) rs ->
  (In (first_le rs max) rs /\ first_le rs max <= max /\
   forall r, In r rs -> r <= max -> r <= first_le rs max) \/
  (first_le rs max = 9600 /\ forall r, In r rs -> max < r).
Proof.
  induction rs as [|r rs IH]; intros Hs.
  - right. split; [reflexivity | intros r []].
  - apply StronglySorted_inv in Hs as [Hs Hf].
    rewrite Forall_forall in Hf. simpl.
    destruct (r <=? max) eqn:E; [rewrite Z.leb_le in E | rewrite Z.leb_gt in E].
    + left. split; [left; reflexivity|]. split; [exact E|].
      intros r' [<- | Hr] _; [lia|]. specialize (Hf r' Hr). lia.
    + destruct (IH Hs) as [(H1 & H2 & H3) | (H1 & H2)].
      * left. split; [right; exact H1|]. split; [exact H2|].
        intros r' [<- | Hr] Hle; [lia | apply H3; assumption].
      * right. split; [exact H1|]. intros r' [<- | Hr]; [lia | apply H2; exact Hr].
Qed.

Lemma rates_sorted : StronglySorted (fun a b => b < a) rates.
Proof. unfold rates. repeat constructor; lia. Qed.

Lemma rates_floor : Forall (fun r => 9600 <= r) rates.
Proof. unfold rates. repeat constructor; lia. Qed.

(** Claim C9. [ra_best_baudrate max] is a rate of the table, is never
    below 9600, and is at least every table rate [<= max]. It is [<= max]
    whenever some table rate is [<= max] (that is, [max >= 9600]), and it
    is 9600 when none is. *)
Theorem best_baudrate_greatest (max : Z) :
  In (ra_best_baudrate max) rates /\
  9600 <= ra_best_baudrate max /\
  (forall r, In r rates -> r <= max -> r <= ra_best_baudrate max) /\
  ((exists r, In r rates /\ r <= max) -> ra_best_baudrate max <= max) /\
  ((forall r, In r rates -> max < r) -> ra_best_baudrate max = 9600).
Proof.
  pose proof rates_floor as Hfl. rewrite Forall_forall in Hfl.
  unfold ra_best_baudrate.
  destruct (first_le_spec rates max rates_sorted) as [(H1 & H2 & H3) | (H1 & H2)].
  - split; [exact H1|]. split; [apply Hfl; exact H1|].
    split; [exact H3|]. split; [intros _; exact H2|].
    intros Hall. specialize (Hall _ H1). lia.
  - rewrite H1. split; [unfold rates; simpl; tauto|]. split; [lia|].
    split; [intros r Hr Hle; specialize (H2 r Hr); lia|].
    split; [|reflexivity].
    intros (r & Hr & Hle). specialize (H2 r Hr). lia.
Qed.

(** Witness for C9: [max = 1000000] selects 1000000; [max = 9599] selects
    9600. *)
Lemma best_baudrate_greatest_witness :
  ra_best_baudrate 1000000 <= 1000000 /\ ra_best_baudrate 9599 = 9600.
Proof.
  split.
  - apply (best_baudrate_greatest 1000000).
    exists 1000000. split; [unfold rates; simpl; tauto | lia].
  - apply (best_baudrate_greatest 9599).
    intros r Hr. unfold rates in Hr. simpl in Hr.
    repeat (destruct Hr as [<- | Hr]; [lia|]). destruct Hr.
Defined.

End BaudClaims.

(** ** Extra properties: big-endian helpers *)
Module BeFacts.
Import Packer Be WrapFacts.

Lemma lor_add (a b k : Z) :
  0 <= k -> 0 <= b < 2 ^ k -> a mod 2 ^ k = 0 -> Z.lor a b = a + b.
Proof.
  intros Hk Hb Ha.
  assert (Hd : Z.land a b = 0).
  { apply Z.bits_inj'. intros n Hn. rewrite Z.land_spec, Z.bits_0.
    destruct (Z.lt_ge_cases n k).
    - rewrite <- (Z.mod_pow2_bits_low a k n) by lia. rewrite Ha, Z.bits_0. reflexivity.
    - rewrite <- (Z.mod_small b (2 ^ k)) by lia.
      rewrite Z.mod_pow2_bits_high by lia. apply andb_false_r. }
  rewrite <- Z.lxor_lor, <- Z.add_nocarry_lxor by exact Hd. reflexivity.
Qed.

Lemma be32_bytes (b0 b1 b2 b3 : Z) (rest : list Z) :
  is_byte b0 -> is_byte b1 -> is_byte b2 -> is_byte b3 ->
  be_to_uint32 ([b0; b1; b2; b3] ++ rest) = b0 * 2 ^ 24 + b1 * 2 ^ 16 + b2 * 2 ^ 8 + b3.
Proof.
  unfold is_byte. intros H0 H1 H2 H3. unfold be_to_uint32.
  change (byte_at ([b0; b1; b2; b3] ++ rest) 0) with b0.
  change (byte_at ([b0; b1; b2; b3] ++ rest) 1) with b1.
  change (byte_at ([b0; b1; b2; b3] ++ rest) 2) with b2.
  change (byte_at ([b0; b1; b2; b3] ++ rest) 3) with b3.
  rewrite !Z.shiftl_mul_pow2 by lia.
  rewrite !u32_id by (change (2 ^ 24) with 16777216; change (2 ^ 16) with 65536;
                      change (2 ^ 8) with 256; lia).
  rewrite (lor_add (b0 * 2 ^ 24) (b1 * 2 ^ 16) 24) by
    (try rewrite Z.mod_mul by lia; change (2 ^ 24) with 16777216;
     change (2 ^ 16) with 65536; lia).
  rewrite (lor_add _ (b2 * 2 ^ 8) 16).
  2: lia.
  2: change (2 ^ 16) with 65536; change (2 ^ 8) with 256; lia.
  2: { replace (b0 * 2 ^ 24 + b1 * 2 ^ 16) with ((b0 * 2 ^ 8 + b1) * 2 ^ 16) by ring.
       apply Z.mod_mul. lia. }
  rewrite (lor_add _ b3 8).
  2: lia.
  2: change (2 ^ 8) with 256; lia.
  2: { replace (b0 * 2 ^ 24 + b1 * 2 ^ 16 + b2 * 2 ^ 8)
         with ((b0 * 2 ^ 16 + b1 * 2 ^ 8 + b2) * 2 ^ 8) by ring.
       apply Z.mod_mul. lia. }
  reflexivity.
Qed.

Lemma be32_split (v : Z) :
  0 <= v < 4294967296 ->
  uint32_to_be v = [v / 2 ^ 24; (v / 2 ^ 16) mod 256; (v / 2 ^ 8) mod 256; v mod 256] /\
  v = v / 2 ^ 24 * 2 ^ 24 + (v / 2 ^ 16) mod 256 * 2 ^ 16
      + (v / 2 ^ 8) mod 256 * 2 ^ 8 + v mod 256 /\
  is_byte (v / 2 ^ 24).
Proof.
  intros Hv. unfold uint32_to_be. rewrite !land255, !Z.shiftr_div_pow2 by lia.
  pose proof (Z.div_mod v 256 ltac:(lia)) as D0.
  pose proof (Z.mod_pos_bound v 256 ltac:(lia)) as M0.
  set (q1 := v / 256) in *.
  pose proof (Z.div_mod q1 256 ltac:(lia)) as D1.
  pose proof (Z.mod_pos_bound q1 256 ltac:(lia)) as M1.
  set (q2 := q1 / 256) in *.
  pose proof (Z.div_mod q2 256 ltac:(lia)) as D2.
  pose proof (Z.mod_pos_bound q2 256 ltac:(lia)) as M2.
  set (q3 := q2 / 256) in *.
  assert (E16 : v / 2 ^ 16 = q2).
  { change (2 ^ 16) with (256 * 256). rewrite <- Z.div_div by lia. reflexivity. }
  assert (E24 : v / 2 ^ 24 = q3).
  { change (2 ^ 24) with (256 * 256 * 256). rewrite <- !Z.div_div by lia. reflexivity. }
  change (2 ^ 8) with 256. rewrite E16, E24. fold q1.
  assert (Hq3 : 0 <= q3 < 256) by lia.
  rewrite (Z.mod_small q3) by lia.
  split; [reflexivity|]. split; [|unfold is_byte; lia].
  change (2 ^ 24) with 16777216. change (2 ^ 16) with 65536. lia.
Qed.

Lemma be32_app (v : Z) (rest : list Z) :
  0 <= v < 4294967296 -> be_to_uint32 (uint32_to_be v ++ rest) = v.
Proof.
  intros Hv. destruct (be32_split v Hv) as (Hs & Heq & Hb). rewrite Hs.
  rewrite be32_bytes by (unfold is_byte; try exact Hb; apply Z.mod_pos_bound; lia).
  symmetry. exact Heq.
Qed.

Lemma be16_split (v : Z) :
  0 <= v < 65536 -> uint16_to_be v = [v / 256; v mod 256] /\ is_byte (v / 256).
Proof.
  intros Hv. unfold uint16_to_be. rewrite !land255, Z.shiftr_div_pow2 by lia.
  change (2 ^ 8) with 256.
  assert (0 <= v / 256 < 256) by (split; [apply Z.div_pos | apply Z.div_lt_upper_bound]; lia).
  rewrite (Z.mod_small (v / 256)) by lia. split; [reflexivity | unfold is_byte; lia].
Qed.

Lemma be16_app (v : Z) (rest : list Z) :
  0 <= v < 65536 -> be_to_uint16 (uint16_to_be v ++ rest) = v.
Proof.
  intros Hv. destruct (be16_split v Hv) as [Hs Hb]. rewrite Hs.
  unfold be_to_uint16.
  change (byte_at ([v / 256; v mod 256] ++ rest) 0) with (v / 256).
  change (byte_at ([v / 256; v mod 256] ++ rest) 1) with (v mod 256).
  rewrite Z.shiftl_mul_pow2 by lia. change (2 ^ 8) with 256.
  pose proof (Z.div_mod v 256 ltac:(lia)). pose proof (Z.mod_pos_bound v 256 ltac:(lia)).
  rewrite (lor_add (v / 256 * 256) (v mod 256) 8) by
    (change (2 ^ 8) with 256; try lia; apply Z.mod_mul; lia).
  unfold u16. rewrite Z.mod_small by lia. lia.
Qed.

End BeFacts.

Module BeClaims.
Import Packer Be WrapFacts BeFacts.

(** Extra: [be_to_uint32] inverts [uint32_to_be] on every 32-bit value,
    and [uint32_to_be] inverts [be_to_uint32] on every 4-byte sequence. *)
Theorem be32_roundtrip :
  (forall v, 0 <= v < 4294967296 -> be_to_uint32 (uint32_to_be v) = v) /\
  (forall b0 b1 b2 b3, is_byte b0 -> is_byte b1 -> is_byte b2 -> is_byte b3 ->
     uint32_to_be (be_to_uint32 [b0; b1; b2; b3]) = [b0; b1; b2; b3]).
Proof.
  split.
  - intros v Hv. rewrite <- (app_nil_r (uint32_to_be v)). apply be32_app. exact Hv.
  - intros b0 b1 b2 b3 H0 H1 H2 H3.
    pose proof (be32_bytes b0 b1 b2 b3 [] H0 H1 H2 H3) as E. rewrite app_nil_r in E.
    rewrite E. unfold is_byte in *.
    set (V := b0 * 2 ^ 24 + b1 * 2 ^ 16 + b2 * 2 ^ 8 + b3).
    assert (HV : 0 <= V < 4294967296)
      by (unfold V; change (2 ^ 24) with 16777216; change (2 ^ 16) with 65536;
          change (2 ^ 8) with 256; lia).
    destruct (be32_split V HV) as (Hs & Heq & Hb). rewrite Hs. unfold is_byte in Hb.
    pose proof (Z.mod_pos_bound (V / 2 ^ 16) 256 ltac:(lia)).
    pose proof (Z.mod_pos_bound (V / 2 ^ 8) 256 ltac:(lia)).
    pose proof (Z.mod_pos_bound V 256 ltac:(lia)).
    unfold V in Heq at 1.
    change (2 ^ 24) with 16777216 in *. change (2 ^ 16) with 65536 in *.
    change (2 ^ 8) with 256 in *.
    assert (b3 = V mod 256) by lia.
    assert (b2 = (V / 256) mod 256) by lia.
    assert (b1 = (V / 65536) mod 256) by lia.
    assert (b0 = V / 16777216) by lia.
    congruence.
Qed.

(** Witness: 0x12345678 and the bytes [0x12; 0x34; 0x56; 0x78]. *)
Lemma be32_roundtrip_witness :
  be_to_uint32 (uint32_to_be 305419896) = 305419896 /\
  uint32_to_be (be_to_uint32 [18; 52; 86; 120]) = [18; 52; 86; 120].
Proof.
  split.
  - apply (proj1 be32_roundtrip). lia.
  - apply (proj2 be32_roundtrip); unfold is_byte; lia.
Defined.

End BeClaims.

Module BoundaryClaims.
Import Packer Be WrapFacts BeFacts CodecFacts Dlm Commands.

Lemma boundary_parse (bnd : ra_boundary) :
  u16_fields bnd -> ra_get_boundary_parse (boundary_payload bnd) = Some bnd.
Proof.
  intros (H1 & H2 & H3 & H4 & H5). destruct bnd as [c1 c2 d s1 s2].
  cbn [cfs1 cfs2 dfs srs1 srs2] in *.
  unfold ra_get_boundary_parse, boundary_payload. cbn [cfs1 cfs2 dfs srs1 srs2].
  change (Z.of_nat (length (uint16_to_be c1 ++ uint16_to_be c2 ++ uint16_to_be d
                              ++ uint16_to_be s1 ++ uint16_to_be s2)) <? 10) with false.
  cbv iota.
  change (skipn 2 (uint16_to_be c1 ++ uint16_to_be c2 ++ uint16_to_be d
                   ++ uint16_to_be s1 ++ uint16_to_be s2))
    with (uint16_to_be c2 ++ uint16_to_be d ++ uint16_to_be s1 ++ uint16_to_be s2).
  change (skipn 4 (uint16_to_be c1 ++ uint16_to_be c2 ++ uint16_to_be d
                   ++ uint16_to_be s1 ++ uint16_to_be s2))
    with (uint16_to_be d ++ uint16_to_be s1 ++ uint16_to_be s2).
  change (skipn 6 (uint16_to_be c1 ++ uint16_to_be c2 ++ uint16_to_be d
                   ++ uint16_to_be s1 ++ uint16_to_be s2))
    with (uint16_to_be s1 ++ uint16_to_be s2).
  change (skipn 8 (uint16_to_be c1 ++ uint16_to_be c2 ++ uint16_to_be d
                   ++ uint16_to_be s1 ++ uint16_to_be s2))
    with (uint16_to_be s2).
  rewrite !be16_app by assumption.
  rewrite <- (app_nil_r (uint16_to_be s2)), be16_app by assumption.
  reflexivity.
Qed.

(** Extra: [ra_set_boundary] sends nothing when [CFS1 > CFS2] or
    [SRS1 > SRS2]. Otherwise it sends one frame with a 10-byte payload,
    and [ra_get_boundary]'s decoding of that payload gives back the five
    16-bit fields. *)
Theorem set_boundary_roundtrip (BND_SET_CMD : Z) (bnd : ra_boundary) :
  u16_fields bnd ->
  ((cfs2 bnd < cfs1 bnd \/ srs2 bnd < srs1 bnd) -> ra_set_boundary BND_SET_CMD bnd = []) /\
  (cfs1 bnd <= cfs2 bnd -> srs1 bnd <= srs2 bnd ->
   exists f, ra_set_boundary BND_SET_CMD bnd = [f] /\
     ra_pack_pkt MAX_PKT_LEN BND_SET_CMD (boundary_payload bnd) false = PackOk 16 f /\
     length (boundary_payload bnd) = 10%nat /\
     ra_get_boundary_parse (boundary_payload bnd) = Some bnd).
Proof.
  intros Hf. split.
  - intros Hc. unfold ra_set_boundary.
    destruct Hc as [Hc | Hc].
    + replace (cfs2 bnd <? cfs1 bnd) with true by (symmetry; apply Z.ltb_lt; exact Hc).
      reflexivity.
    + destruct (cfs2 bnd <? cfs1 bnd); [reflexivity|].
      replace (srs2 bnd <? srs1 bnd) with true by (symmetry; apply Z.ltb_lt; exact Hc).
      reflexivity.
  - intros Hc Hs. unfold ra_set_boundary.
    replace (cfs2 bnd <? cfs1 bnd) with false by (symmetry; apply Z.ltb_ge; exact Hc).
    replace (srs2 bnd <? srs1 bnd) with false by (symmetry; apply Z.ltb_ge; exact Hs).
    assert (Hl : length (boundary_payload bnd) = 10%nat) by reflexivity.
    rewrite pack_ok by (rewrite Hl; unfold MAX_PKT_LEN, MAX_DATA_LEN; lia).
    rewrite Hl. eexists. split; [reflexivity|]. split; [reflexivity|].
    split; [exact Hl|]. apply boundary_parse. exact Hf.
Qed.

(** Witness: CFS1 = 256 KB, CFS2 = 512 KB, DFS = 0, SRS1 = SRS2 = 128 KB. *)
Lemma set_boundary_roundtrip_witness :
  exists f, ra_set_boundary 78 (mk_boundary 256 512 0 128 128) = [f] /\
    ra_pack_pkt MAX_PKT_LEN 78 (boundary_payload (mk_boundary 256 512 0 128 128)) false
    = PackOk 16 f /\
    length (boundary_payload (mk_boundary 256 512 0 128 128)) = 10%nat /\
    ra_get_boundary_parse (boundary_payload (mk_boundary 256 512 0 128 128))
    = Some (mk_boundary 256 512 0 128 128).
Proof.
  apply (proj2 (set_boundary_roundtrip 78 (mk_boundary 256 512 0 128 128)
                  ltac:(unfold u16_fields; simpl; lia))); simpl; lia.
Defined.

End BoundaryClaims.

Module AreaOpsClaims.
Import Packer Areas Be WrapFacts BeFacts CodecFacts AreaOps AreaClaims.

Lemma koa_loop_spec (layout : list ra_area) (k : Z) (fuel : nat) :
  forall (i : nat) (csad cead : Z) (found : bool),
  let '(s, e, f) := koa_loop layout k i fuel (csad, cead, found) in
  (f = true <-> found = true \/ exists j, (i <= j < i + fuel)%nat /\ koa_slot layout k j) /\
  s <= csad /\ cead <= e /\
  (forall j, (i <= j < i + fuel)%nat -> koa_slot layout k j ->
     s <= sad (area_at layout j) /\ ead (area_at layout j) <= e) /\
  (s = csad \/ exists j, (i <= j < i + fuel)%nat /\ koa_slot layout k j /\
                         s = sad (area_at layout j)) /\
  (e = cead \/ exists j, (i <= j < i + fuel)%nat /\ koa_slot layout k j /\
                         e = ead (area_at layout j)).
Proof.
  induction fuel as [|fuel IH]; intros i csad cead found.
  - cbn. split; [split; [tauto | intros [H | (j & Hj & _)]; [exact H | lia]]|].
    split; [lia|]. split; [lia|]. split; [intros j Hj; lia|]. split; left; reflexivity.
  - cbn [koa_loop].
    destruct ((sad (area_at layout i) =? 0) && (ead (area_at layout i) =? 0)) eqn:E0.
    + apply andb_true_iff in E0. rewrite !Z.eqb_eq in E0.
      assert (Hn : ~ koa_slot layout k i) by (unfold koa_slot; tauto).
      specialize (IH (S i) csad cead found).
      destruct (koa_loop layout k (S i) fuel (csad, cead, found)) as [[s e] f].
      destruct IH as (H1 & H2 & H3 & H4 & H5 & H6).
      split; [|split; [exact H2|split; [exact H3|split; [|split]]]].
      * rewrite H1. split; (intros [H | (j & Hj & Hk)]; [left; exact H | right]).
        -- exists j. split; [lia | exact Hk].
        -- exists j. split; [|exact Hk]. destruct (Nat.eq_dec j i) as [->|]; [tauto | lia].
      * intros j Hj Hk. destruct (Nat.eq_dec j i) as [->|]; [tauto|]. apply H4; [lia | exact Hk].
      * destruct H5 as [H5 | (j & Hj & Hk & Hs)]; [left; exact H5 | right].
        exists j. split; [lia | auto].
      * destruct H6 as [H6 | (j & Hj & Hk & Hs)]; [left; exact H6 | right].
        exists j. split; [lia | auto].
    + destruct (koa (area_at layout i) =? k) eqn:Ek.
      * rewrite Z.eqb_eq in Ek.
        assert (Hy : koa_slot layout k i).
        { unfold koa_slot. split; [|exact Ek].
          apply andb_false_iff in E0. rewrite !Z.eqb_neq in E0. tauto. }
        set (csad' := if sad (area_at layout i) <? csad then sad (area_at layout i) else csad).
        set (cead' := if cead <? ead (area_at layout i) then ead (area_at layout i) else cead).
        assert (Hs' : csad' <= csad /\ csad' <= sad (area_at layout i) /\
                      (csad' = csad \/ csad' = sad (area_at layout i))).
        { unfold csad'. destruct (_ <? csad) eqn:E; [rewrite Z.ltb_lt in E | rewrite Z.ltb_ge in E];
            lia. }
        assert (He' : cead <= cead' /\ ead (area_at layout i) <= cead' /\
                      (cead' = cead \/ cead' = ead (area_at layout i))).
        { unfold cead'. destruct (cead <? _) eqn:E; [rewrite Z.ltb_lt in E | rewrite Z.ltb_ge in E];
            lia. }
        specialize (IH (S i) csad' cead' true).
        destruct (koa_loop layout k (S i) fuel (csad', cead', true)) as [[s e] f].
        destruct IH as (H1 & H2 & H3 & H4 & H5 & H6).
        split; [|split; [lia|split; [lia|split; [|split]]]].
        -- rewrite H1. split; intros _; [right; exists i; split; [lia | exact Hy] | left; reflexivity].
        -- intros j Hj Hk. destruct (Nat.eq_dec j i) as [->|]; [lia|]. apply H4; [lia | exact Hk].
        -- destruct H5 as [H5 | (j & Hj & Hk & Hs)].
           ++ destruct Hs' as (_ & _ & [Ha | Ha]); [left; lia | right; exists i; split; [lia | split; [exact Hy | lia]]].
           ++ right. exists j. split; [lia | auto].
        -- destruct H6 as [H6 | (j & Hj & Hk & Hs)].
           ++ destruct He' as (_ & _ & [Ha | Ha]); [left; lia | right; exists i; split; [lia | split; [exact Hy | lia]]].
           ++ right. exists j. split; [lia | auto].
      * rewrite Z.eqb_neq in Ek.
        assert (Hn : ~ koa_slot layout k i) by (unfold koa_slot; tauto).
        specialize (IH (S i) csad cead found).
        destruct (koa_loop layout k (S i) fuel (csad, cead, found)) as [[s e] f].
        destruct IH as (H1 & H2 & H3 & H4 & H5 & H6).
        split; [|split; [exact H2|split; [exact H3|split; [|split]]]].
        -- rewrite H1. split; (intros [H | (j & Hj & Hk)]; [left; exact H | right]).
           ++ exists j. split; [lia | exact Hk].
           ++ exists j. split; [|exact Hk]. destruct (Nat.eq_dec j i) as [->|]; [tauto | lia].
        -- intros j Hj Hk. destruct (Nat.eq_dec j i) as [->|]; [tauto|]. apply H4; [lia | exact Hk].
        -- destruct H5 as [H5 | (j & Hj & Hk & Hs)]; [left; exact H5 | right].
           exists j. split; [lia | auto].
        -- destruct H6 as [H6 | (j & Hj & Hk & Hs)]; [left; exact H6 | right].
           exists j. split; [lia | auto].
Qed.

Lemma area_payload_parse (a : ra_area) :
  is_byte (koa a) ->
  0 <= sad a < 4294967296 -> 0 <= ead a < 4294967296 -> 0 <= eau a < 4294967296 ->
  0 <= wau a < 4294967296 -> 0 <= rau a < 4294967296 -> 0 <= cau a < 4294967296 ->
  parse_area (area_payload a) = Some a.
Proof.
  intros H0 H1 H2 H3 H4 H5 H6. destruct a as [k s e ea wa ra ca].
  cbn [koa sad ead eau wau rau cau] in *.
  unfold parse_area, area_payload. cbn [koa sad ead eau wau rau cau].
  change (Z.of_nat (length ([k] ++ uint32_to_be s ++ uint32_to_be e ++ uint32_to_be ea
            ++ uint32_to_be wa ++ uint32_to_be ra ++ uint32_to_be ca)) <? 25) with false.
  cbv iota.
  change (skipn 1 ([k] ++ uint32_to_be s ++ uint32_to_be e ++ uint32_to_be ea
            ++ uint32_to_be wa ++ uint32_to_be ra ++ uint32_to_be ca))
    with (uint32_to_be s ++ uint32_to_be e ++ uint32_to_be ea
            ++ uint32_to_be wa ++ uint32_to_be ra ++ uint32_to_be ca).
  change (skipn 5 ([k] ++ uint32_to_be s ++ uint32_to_be e ++ uint32_to_be ea
            ++ uint32_to_be wa ++ uint32_to_be ra ++ uint32_to_be ca))
    with (uint32_to_be e ++ uint32_to_be ea ++ uint32_to_be wa ++ uint32_to_be ra
            ++ uint32_to_be ca).
  change (skipn 9 ([k] ++ uint32_to_be s ++ uint32_to_be e ++ uint32_to_be ea
            ++ uint32_to_be wa ++ uint32_to_be ra ++ uint32_to_be ca))
    with (uint32_to_be ea ++ uint32_to_be wa ++ uint32_to_be ra ++ uint32_to_be ca).
  change (skipn 13 ([k] ++ uint32_to_be s ++ uint32_to_be e ++ uint32_to_be ea
            ++ uint32_to_be wa ++ uint32_to_be ra ++ uint32_to_be ca))
    with (uint32_to_be wa ++ uint32_to_be ra ++ uint32_to_be ca).
  change (skipn 17 ([k] ++ uint32_to_be s ++ uint32_to_be e ++ uint32_to_be ea
            ++ uint32_to_be wa ++ uint32_to_be ra ++ uint32_to_be ca))
    with (uint32_to_be ra ++ uint32_to_be ca).
  change (skipn 21 ([k] ++ uint32_to_be s ++ uint32_to_be e ++ uint32_to_be ea
            ++ uint32_to_be wa ++ uint32_to_be ra ++ uint32_to_be ca))
    with (uint32_to_be ca).
  change (byte_at ([k] ++ uint32_to_be s ++ uint32_to_be e ++ uint32_to_be ea
            ++ uint32_to_be wa ++ uint32_to_be ra ++ uint32_to_be ca) 0) with k.
  rewrite !be32_app by assumption.
  rewrite <- (app_nil_r (uint32_to_be ca)), be32_app by assumption.
  reflexivity.
Qed.

(** [set_crc_boundaries] on success. *)
Lemma crc_inv (layout : list ra_area) (start size : Z) (i : nat) (e : Z) :
  set_crc_boundaries layout start size = Some (i, e) ->
  let a := area_at layout i in
  cau a <> 0 /\ start mod cau a = 0 /\
  e = u32 (u32 (size + cau a - 1) / cau a * cau a + start - 1) /\
  (start < e \/ size <= cau a) /\ e <= ead a /\ sad a <= start <= ead a.
Proof.
  unfold set_crc_boundaries. cbv zeta. intros H.
  destruct (AreaClaims.find_from_result layout start MAX_AREAS 0)
    as [[H1 _] | (k & H1 & _ & Hin & _)]; unfold find_area_for_address in H;
    rewrite H1 in H; [discriminate|].
  rewrite Nat2Z.id in H.
  split_ifs_opt H. injection H as <- <-.
  unfold in_area in Hin.
  rewrite ?negb_false_iff, ?Z.ltb_ge, ?Z.leb_gt, ?Z.eqb_eq, ?Z.eqb_neq, ?andb_false_iff,
    ?Z.leb_gt, ?Z.ltb_ge in *.
  repeat split; try tauto; lia.
Qed.

(** The end address of an accepted block-aligned range. *)
Lemma block_end_exact (unit start size e : Z) :
  0 <= start < 4294967296 -> 1 <= size -> size + unit - 1 < 4294967296 -> 0 < unit ->
  e = u32 (u32 (size + unit - 1) / unit * unit + start - 1) -> start <= e ->
  e - start + 1 = (size + unit - 1) / unit * unit /\
  size <= e - start + 1 < size + unit.
Proof.
  intros Hs Hz Hfit Hu He Hle.
  rewrite (u32_id (size + unit - 1)) in He by lia.
  pose proof (Z.div_mod (size + unit - 1) unit ltac:(lia)) as Hdm.
  pose proof (Z.mod_pos_bound (size + unit - 1) unit Hu) as Hmb.
  set (q := (size + unit - 1) / unit) in *.
  assert (Hq1 : 1 <= q) by (destruct (Z_lt_le_dec q 1); [nia | lia]).
  assert (Hq : unit <= q * unit <= size + unit - 1) by nia.
  destruct (Z_lt_le_dec (q * unit + start - 1) 4294967296) as [Hsm | Hbig].
  - rewrite u32_id in He by lia. subst e. split; lia.
  - rewrite u32_high in He by lia. lia.
Qed.

(** The end address of an accepted read range. *)
Lemma read_cover (layout : list ra_area) (start size : Z) (i : nat) (e : Z) :
  0 <= start < 4294967296 -> 1 <= size < 4294967296 ->
  set_read_boundaries layout start size = Some (i, e) ->
  unit_fits (rau (area_at layout i)) (ead (area_at layout i)) ->
  start + size - 1 <= e < start + size - 1 + rau (area_at layout i).
Proof.
  intros Hs Hz H. unfold set_read_boundaries in H. cbv zeta in H.
  destruct (find_area_for_address layout start <? 0); [discriminate|].
  remember (area_at layout (Z.to_nat (find_area_for_address layout start))) as a eqn:Ha.
  destruct (rau a =? 0) eqn:R; [discriminate|].
  destruct (negb (start mod rau a =? 0)) eqn:A; [discriminate|].
  destruct ((u32 (start + size - 1) <=? start) && (1 <? size)) eqn:C; [discriminate|].
  pose proof (read_end0 start size Hs Hz C) as He0.
  set (e0 := u32 (start + size - 1)) in *.
  destruct (ead a <? e0) eqn:D; [discriminate|].
  injection H as Hi He. subst i. rewrite <- Ha.
  unfold unit_fits. intros [Hea [Hr Hfit]].
  rewrite Z.eqb_neq in R. rewrite Z.ltb_ge in D.
  assert (Hpos : 0 < rau a) by lia.
  rewrite He0 in He, D.
  destruct (negb (u32 (start + size - 1 + 1) mod rau a =? 0)) eqn:G.
  - pose proof (Z.div_mod (start + size - 1) (rau a) R) as Hdm.
    pose proof (Z.mod_pos_bound (start + size - 1) (rau a) Hpos) as Hmb.
    set (q := (start + size - 1) / rau a) in *.
    assert (Hal : (q + 1) * rau a - 1 = rau a * q + rau a - 1) by ring.
    rewrite Hal in He.
    rewrite (u32_id (rau a * q + rau a - 1)) in He by lia.
    destruct (ead a <? rau a * q + rau a - 1) eqn:F;
      [rewrite Z.ltb_lt in F | rewrite Z.ltb_ge in F].
    + destruct (ead a =? start + size - 1) eqn:Q; simpl in He; rewrite ?Z.eqb_eq in Q;
        subst e; lia.
    + destruct (rau a * q + rau a - 1 =? start + size - 1) eqn:Q; simpl in He;
        rewrite ?Z.eqb_eq in Q; subst e; lia.
  - subst e. lia.
Qed.

(** Extra: [ra_find_area_by_koa] fails exactly when none of the four
    slots is a non-empty area of the requested kind. Otherwise it returns
    the lowest SAD and the highest EAD over those areas, each reached by
    one of them, so every such area lies inside the returned range. *)
Theorem find_area_by_koa_span (layout : list ra_area) (k : Z)
  (Hr : forall i, (i < MAX_AREAS)%nat ->
        0 <= sad (area_at layout i) <= 4294967295 /\ 0 <= ead (area_at layout i)) :
  match ra_find_area_by_koa layout k with
  | None => forall i, (i < MAX_AREAS)%nat -> ~ koa_slot layout k i
  | Some (s, e) =>
      (exists i, (i < MAX_AREAS)%nat /\ koa_slot layout k i /\ sad (area_at layout i) = s) /\
      (exists j, (j < MAX_AREAS)%nat /\ koa_slot layout k j /\ ead (area_at layout j) = e) /\
      (forall i, (i < MAX_AREAS)%nat -> koa_slot layout k i ->
         s <= sad (area_at layout i) /\ ead (area_at layout i) <= e)
  end.
Proof.
  unfold ra_find_area_by_koa.
  pose proof (koa_loop_spec layout k MAX_AREAS 0 4294967295 0 false) as H.
  destruct (koa_loop layout k 0 MAX_AREAS (4294967295, 0, false)) as [[s e] f].
  destruct H as (H1 & H2 & H3 & H4 & H5 & H6). cbn [Nat.add] in *.
  destruct f; cbn [negb].
  - destruct (proj1 H1 eq_refl) as [Hc | (j0 & Hj0 & Hk0)]; [discriminate|].
    split; [|split].
    + destruct H5 as [H5 | (j & Hj & Hk & Hs)].
      * exists j0. split; [lia|]. split; [exact Hk0|].
        destruct (H4 j0 Hj0 Hk0). destruct (Hr j0 ltac:(unfold MAX_AREAS in *; lia)). lia.
      * exists j. split; [lia | split; [exact Hk | lia]].
    + destruct H6 as [H6 | (j & Hj & Hk & Hs)].
      * exists j0. split; [lia|]. split; [exact Hk0|].
        destruct (H4 j0 Hj0 Hk0). destruct (Hr j0 ltac:(unfold MAX_AREAS in *; lia)). lia.
      * exists j. split; [lia | split; [exact Hk | lia]].
    + intros i Hi Hk. apply H4; [lia | exact Hk].
  - intros i Hi Hk.
    assert (Hf : false = true) by (apply H1; right; exists i; split; [lia | exact Hk]).
    discriminate.
Qed.

(** Witness: two code flash areas (KOA 0) around a data flash area. *)
Lemma find_area_by_koa_span_witness :
  ra_find_area_by_koa [mk_area 0 0 8191 8192 128 1 128; mk_area 16 1048576 1056767 64 4 1 4;
                       mk_area 0 8192 16383 8192 128 1 128] 0 = Some (0, 16383) /\
  exists i j,
    koa_slot [mk_area 0 0 8191 8192 128 1 128; mk_area 16 1048576 1056767 64 4 1 4;
              mk_area 0 8192 16383 8192 128 1 128] 0 i /\
    sad (area_at [mk_area 0 0 8191 8192 128 1 128; mk_area 16 1048576 1056767 64 4 1 4;
                  mk_area 0 8192 16383 8192 128 1 128] i) = 0 /\
    koa_slot [mk_area 0 0 8191 8192 128 1 128; mk_area 16 1048576 1056767 64 4 1 4;
              mk_area 0 8192 16383 8192 128 1 128] 0 j /\
    ead (area_at [mk_area 0 0 8191 8192 128 1 128; mk_area 16 1048576 1056767 64 4 1 4;
                  mk_area 0 8192 16383 8192 128 1 128] j) = 16383.
Proof.
  assert (E : ra_find_area_by_koa [mk_area 0 0 8191 8192 128 1 128;
                mk_area 16 1048576 1056767 64 4 1 4; mk_area 0 8192 16383 8192 128 1 128] 0
              = Some (0, 16383)) by (vm_compute; reflexivity).
  split; [exact E|].
  pose proof (find_area_by_koa_span [mk_area 0 0 8191 8192 128 1 128;
                mk_area 16 1048576 1056767 64 4 1 4; mk_area 0 8192 16383 8192 128 1 128] 0
              ltac:(intros i Hi; do 4 (destruct i as [|i]; [simpl; lia|]); unfold MAX_AREAS in Hi; lia))
    as H.
  rewrite E in H. destruct H as ((i & _ & Hi & Hs) & (j & _ & Hj & He) & _).
  exists i, j. auto.
Defined.

(** Extra: an accepted erase, write or CRC range starting at [start] for
    [size >= 1] bytes spans exactly [ceil (size / A) * A] bytes, for the
    area's unit [A]. So it holds the request and overshoots it by less
    than one unit. An accepted read range ends at or after
    [start + size - 1] and less than one RAU after it. *)
Theorem boundaries_cover (layout : list ra_area) (start size : Z) (i : nat) (e : Z)
  (Hs : 0 <= start < 4294967296) (Hz : 1 <= size) :
  (set_erase_boundaries layout start size = Some (i, e) ->
   0 <= eau (area_at layout i) -> size + eau (area_at layout i) - 1 < 4294967296 ->
   e - start + 1 = (size + eau (area_at layout i) - 1) / eau (area_at layout i)
                   * eau (area_at layout i) /\
   size <= e - start + 1 < size + eau (area_at layout i)) /\
  (set_write_boundaries layout start size = Some (i, e) ->
   0 <= wau (area_at layout i) -> size + wau (area_at layout i) - 1 < 4294967296 ->
   e - start + 1 = (size + wau (area_at layout i) - 1) / wau (area_at layout i)
                   * wau (area_at layout i) /\
   size <= e - start + 1 < size + wau (area_at layout i)) /\
  (set_crc_boundaries layout start size = Some (i, e) ->
   unit_fits (cau (area_at layout i)) (ead (area_at layout i)) ->
   size + cau (area_at layout i) - 1 < 4294967296 ->
   e - start + 1 = (size + cau (area_at layout i) - 1) / cau (area_at layout i)
                   * cau (area_at layout i) /\
   size <= e - start + 1 < size + cau (area_at layout i)) /\
  (set_read_boundaries layout start size = Some (i, e) -> size < 4294967296 ->
   unit_fits (rau (area_at layout i)) (ead (area_at layout i)) ->
   start + size - 1 <= e < start + size - 1 + rau (area_at layout i)).
Proof.
  split; [|split; [|split]].
  - intros H Hu Hf. destruct (erase_inv layout start size i e H) as (H1 & H2 & H3 & H4 & H5).
    apply (block_end_exact _ start size e); try assumption; lia.
  - intros H Hu Hf. destruct (write_inv layout start size i e H) as (H1 & H2 & H3 & H4 & H5).
    apply (block_end_exact _ start size e); try assumption; lia.
  - intros H [Hea [Hu Hfit]] Hf.
    destruct (crc_inv layout start size i e H) as (H1 & H2 & H3 & H4 & H5 & H6).
    apply (block_end_exact _ start size e); try assumption; try lia.
    destruct H4 as [H4 | H4]; [lia|].
    set (c := cau (area_at layout i)) in *.
    assert (Hq : (size + c - 1) / c = 1)
      by (symmetry; apply Z.div_unique with (size - 1); lia).
    rewrite H3, (u32_id (size + c - 1)), Hq, Z.mul_1_l, u32_id by lia. lia.
  - intros H Hz' Hfit. apply (read_cover layout start size i e); auto; lia.
Qed.

(** Witness: a 1000-byte erase from 0 with 1 KB erase blocks ends at 1023. *)
Lemma boundaries_cover_witness :
  set_erase_boundaries [mk_area 0 0 65535 1024 4 4 4] 0 1000 = Some (0%nat, 1023) /\
  1023 - 0 + 1 = (1000 + eau (area_at [mk_area 0 0 65535 1024 4 4 4] 0) - 1)
                 / eau (area_at [mk_area 0 0 65535 1024 4 4 4] 0)
                 * eau (area_at [mk_area 0 0 65535 1024 4 4 4] 0) /\
  1000 <= 1023 - 0 + 1 < 1000 + eau (area_at [mk_area 0 0 65535 1024 4 4 4] 0).
Proof.
  assert (E : set_erase_boundaries [mk_area 0 0 65535 1024 4 4 4] 0 1000 = Some (0%nat, 1023))
    by (vm_compute; reflexivity).
  split; [exact E|].
  exact (proj1 (boundaries_cover [mk_area 0 0 65535 1024 4 4 4] 0 1000 0 1023
                  ltac:(lia) ltac:(lia)) E ltac:(simpl; lia) ltac:(simpl; lia)).
Defined.

Lemma addr_pair_payload (s e : Z) :
  0 <= s < 4294967296 -> 0 <= e < 4294967296 ->
  length (uint32_to_be s ++ uint32_to_be e) = 8%nat /\
  be_to_uint32 (uint32_to_be s ++ uint32_to_be e) = s /\
  be_to_uint32 (skipn 4 (uint32_to_be s ++ uint32_to_be e)) = e.
Proof.
  intros Hs He. split; [reflexivity|]. split; [apply be32_app; exact Hs|].
  change (skipn 4 (uint32_to_be s ++ uint32_to_be e)) with (uint32_to_be e).
  rewrite <- (app_nil_r (uint32_to_be e)). apply be32_app. exact He.
Qed.

(** Extra: when the boundaries are accepted, [ra_erase] and [ra_crc]
    each send one request frame. Its 8-byte payload decodes with
    [be_to_uint32] to the start address and to the end address that the
    boundary function computed for [size], or for one byte when
    [size = 0]. *)
Theorem erase_crc_requests (layout : list ra_area) (start size : Z) (i : nat) (e : Z)
  (Hs : 0 <= start < 4294967296) :
  (set_erase_boundaries layout start (if size =? 0 then 1 else size) = Some (i, e) ->
   exists f p, ra_erase_frame layout start size = Some f /\
     ra_pack_pkt MAX_PKT_LEN ERA_CMD p false = PackOk 14 f /\
     length p = 8%nat /\ be_to_uint32 p = start /\ be_to_uint32 (skipn 4 p) = e) /\
  (set_crc_boundaries layout start (if size =? 0 then 1 else size) = Some (i, e) ->
   exists f p, ra_crc_frame layout start size = Some f /\
     ra_pack_pkt MAX_PKT_LEN CRC_CMD p false = PackOk 14 f /\
     length p = 8%nat /\ be_to_uint32 p = start /\ be_to_uint32 (skipn 4 p) = e).
Proof.
  split; intros H.
  - assert (He : 0 <= e < 4294967296).
    { destruct (erase_inv _ _ _ _ _ H) as (_ & _ & -> & _). apply u32_range. }
    destruct (addr_pair_payload start e Hs He) as (Hl & H1 & H2).
    set (p := uint32_to_be start ++ uint32_to_be e) in *.
    pose proof (pack_ok MAX_PKT_LEN ERA_CMD p false) as Hp. rewrite Hl in Hp.
    specialize (Hp ltac:(unfold MAX_DATA_LEN; lia) ltac:(unfold MAX_PKT_LEN, MAX_DATA_LEN; lia)).
    eexists; exists p. unfold ra_erase_frame. rewrite H. fold p. rewrite Hp. auto.
  - assert (He : 0 <= e < 4294967296).
    { destruct (crc_inv _ _ _ _ _ H) as (_ & _ & -> & _). apply u32_range. }
    destruct (addr_pair_payload start e Hs He) as (Hl & H1 & H2).
    set (p := uint32_to_be start ++ uint32_to_be e) in *.
    pose proof (pack_ok MAX_PKT_LEN CRC_CMD p false) as Hp. rewrite Hl in Hp.
    specialize (Hp ltac:(unfold MAX_DATA_LEN; lia) ltac:(unfold MAX_PKT_LEN, MAX_DATA_LEN; lia)).
    eexists; exists p. unfold ra_crc_frame. rewrite H. fold p. rewrite Hp. auto.
Qed.

(** Witness: the erase of 1000 bytes from 0 with 1 KB erase blocks. *)
Lemma erase_crc_requests_witness :
  exists f p, ra_erase_frame [mk_area 0 0 65535 1024 4 4 4] 0 1000 = Some f /\
    ra_pack_pkt MAX_PKT_LEN ERA_CMD p false = PackOk 14 f /\
    length p = 8%nat /\ be_to_uint32 p = 0 /\ be_to_uint32 (skipn 4 p) = 1023.
Proof.
  apply (proj1 (erase_crc_requests [mk_area 0 0 65535 1024 4 4 4] 0 1000 0 1023 ltac:(lia))).
  vm_compute. reflexivity.
Defined.

(** Extra: [ra_get_area_info]'s decoding of an area reply inverts the
    reply layout: for a KOA byte and six 32-bit fields sent as
    [KOA SAD EAD EAU WAU RAU CAU] (big-endian), the parsed descriptor is
    the original one. A reply shorter than 25 bytes is rejected. *)
Theorem area_info_roundtrip (a : ra_area) (data : list Z) :
  (is_byte (koa a) ->
   0 <= sad a < 4294967296 -> 0 <= ead a < 4294967296 -> 0 <= eau a < 4294967296 ->
   0 <= wau a < 4294967296 -> 0 <= rau a < 4294967296 -> 0 <= cau a < 4294967296 ->
   length (area_payload a) = 25%nat /\ parse_area (area_payload a) = Some a) /\
  ((length data < 25)%nat -> parse_area data = None).
Proof.
  split.
  - intros. split; [reflexivity|]. apply area_payload_parse; assumption.
  - intros Hl. unfold parse_area.
    replace (Z.of_nat (length data) <? 25) with true by (symmetry; apply Z.ltb_lt; lia).
    reflexivity.
Qed.

(** Witness: the code flash area [0, 0x3FFFF] with 8 KB erase blocks,
    and a 3-byte reply. *)
Lemma area_info_roundtrip_witness :
  length (area_payload (mk_area 0 0 262143 8192 128 1 128)) = 25%nat /\
  parse_area (area_payload (mk_area 0 0 262143 8192 128 1 128))
  = Some (mk_area 0 0 262143 8192 128 1 128) /\
  parse_area [0; 0; 0] = None.
Proof.
  pose proof (area_info_roundtrip (mk_area 0 0 262143 8192 128 1 128) [0; 0; 0]) as [H1 H2].
  split; [|split].
  - apply H1; unfold is_byte; simpl; lia.
  - apply H1; unfold is_byte; simpl; lia.
  - apply H2. simpl. lia.
Defined.

End AreaOpsClaims.

Module ProtectClaims.
Import Packer Protect.

Lemma fold_count (t : Z -> bool) (js : list Z) (c0 : Z) :
  fold_left (fun c b => if t b then c + 1 else c) js c0 = c0 + Z.of_nat (length (filter t js)).
Proof.
  revert c0. induction js as [|j js IH]; intros c0; simpl; [lia|].
  rewrite IH. destruct (t j); simpl; lia.
Qed.

Lemma count_snoc (l : list Z) (x : Z) :
  count_protected_blocks (l ++ [x])
  = count_protected_blocks l
    + Z.of_nat (length (filter (fun b => Z.land x (Z.shiftl 1 b) =? 0)
                          [0; 1; 2; 3; 4; 5; 6; 7])).
Proof.
  unfold count_protected_blocks. rewrite fold_left_app.
  change (fold_left ?f [x] ?a) with (f a x). cbv beta.
  apply (fold_count (fun b => Z.land x (Z.shiftl 1 b) =? 0)).
Qed.

Lemma protected_prefix (l : list Z) (x b : Z) :
  0 <= b < 8 * Z.of_nat (length l) ->
  is_block_protected (l ++ [x]) (Z.of_nat (length l) + 1) b
  = is_block_protected l (Z.of_nat (length l)) b.
Proof.
  intros Hb. unfold is_block_protected.
  replace ((b <? 0) || ((Z.of_nat (length l) + 1) * 8 <=? b)) with false
    by (symmetry; apply orb_false_iff; split; [apply Z.ltb_ge | apply Z.leb_gt]; lia).
  replace ((b <? 0) || (Z.of_nat (length l) * 8 <=? b)) with false
    by (symmetry; apply orb_false_iff; split; [apply Z.ltb_ge | apply Z.leb_gt]; lia).
  cbv zeta. unfold byte_at. rewrite app_nth1; [reflexivity|].
  assert (b / 8 < Z.of_nat (length l)) by (apply Z.div_lt_upper_bound; lia).
  assert (0 <= b / 8) by (apply Z.div_pos; lia). lia.
Qed.

Lemma protected_last (l : list Z) (x j : Z) :
  0 <= j < 8 ->
  is_block_protected (l ++ [x]) (Z.of_nat (length l) + 1) (8 * Z.of_nat (length l) + j)
  = (Z.land x (Z.shiftl 1 j) =? 0).
Proof.
  intros Hj. unfold is_block_protected.
  replace ((_ <? 0) || (_ <=? _)) with false
    by (symmetry; apply orb_false_iff; split; [apply Z.ltb_ge | apply Z.leb_gt]; lia).
  cbv zeta.
  assert (Hd : (8 * Z.of_nat (length l) + j) / 8 = Z.of_nat (length l))
    by (symmetry; apply Z.div_unique with j; lia).
  assert (Hm : (8 * Z.of_nat (length l) + j) mod 8 = j)
    by (symmetry; apply Z.mod_unique with (Z.of_nat (length l)); lia).
  rewrite Hd, Hm. unfold byte_at. rewrite Nat2Z.id, app_nth2, Nat.sub_diag by lia.
  reflexivity.
Qed.

(** Extra: [count_protected_blocks] over a BPS/PBPS byte array counts the
    blocks [0 .. 8 len - 1] that [is_block_protected] reports as
    protected, each bit of the array being counted once. *)
Theorem count_protected_blocks_spec (bps : list Z) :
  count_protected_blocks bps
  = Z.of_nat (length (filter (fun b => is_block_protected bps (Z.of_nat (length bps)) b)
                        (map Z.of_nat (seq 0 (8 * length bps))))).
Proof.
  induction bps as [|x l IH] using rev_ind; [reflexivity|].
  rewrite count_snoc, IH, length_app. cbn [length].
  replace (8 * (length l + 1))%nat with (8 * length l + 8)%nat by lia.
  rewrite seq_app, map_app, filter_app, length_app, Nat2Z.inj_add. f_equal.
  - f_equal. f_equal. apply filter_ext_in. intros b Hb.
    apply in_map_iff in Hb. destruct Hb as (n & <- & Hn). apply in_seq in Hn.
    rewrite Nat2Z.inj_add. symmetry. apply protected_prefix. lia.
  - f_equal.
    set (L := length l).
    assert (Hs : map Z.of_nat (seq (0 + 8 * L) 8)
                 = map (fun j => 8 * Z.of_nat L + j) [0; 1; 2; 3; 4; 5; 6; 7]).
    { cbn [seq map]. repeat f_equal; lia. }
    rewrite Hs, filter_map_swap, length_map. f_equal.
    apply filter_ext_in. intros j Hj.
    rewrite Nat2Z.inj_add. change (Z.of_nat 1) with 1.
    unfold L. symmetry. apply protected_last.
    simpl in Hj. lia.
Qed.

(** Extra: [addr_to_block] returns -1 for an offset at or past the code
    flash size; below it, offsets under 0x10000 fall in 8 KB blocks 0..7
    and the rest in 32 KB blocks from 8 on, the block containing the
    offset. *)
Theorem addr_to_block_range (offset code_size : Z) (Ho : 0 <= offset) :
  (code_size <= offset -> addr_to_block offset code_size = -1) /\
  (offset < code_size -> offset < 65536 ->
     let b := addr_to_block offset code_size in
     0 <= b < 8 /\ 8192 * b <= offset < 8192 * (b + 1)) /\
  (offset < code_size -> 65536 <= offset ->
     let b := addr_to_block offset code_size in
     8 <= b /\ 65536 + 32768 * (b - 8) <= offset < 65536 + 32768 * (b - 7)).
Proof.
  unfold addr_to_block. split; [|split]; intros H1.
  - apply Z.leb_le in H1. now rewrite H1.
  - intros H2. cbv zeta.
    rewrite (proj2 (Z.leb_gt _ _) H1), (proj2 (Z.ltb_lt _ _) H2).
    pose proof (Z.div_mod offset 8192 ltac:(lia)).
    pose proof (Z.mod_pos_bound offset 8192 ltac:(lia)).
    assert (0 <= offset / 8192) by (apply Z.div_pos; lia).
    assert (offset / 8192 < 8) by (apply Z.div_lt_upper_bound; lia).
    lia.
  - intros H2. cbv zeta.
    rewrite (proj2 (Z.leb_gt _ _) H1), (proj2 (Z.ltb_ge _ _) H2).
    pose proof (Z.div_mod (offset - 65536) 32768 ltac:(lia)).
    pose proof (Z.mod_pos_bound (offset - 65536) 32768 ltac:(lia)).
    assert (0 <= (offset - 65536) / 32768) by (apply Z.div_pos; lia).
    lia.
Qed.

(** Witness: offset 0x11170 of a 1 MB code flash is in 32 KB block 8. *)
Lemma addr_to_block_range_witness :
  let b := addr_to_block 70000 1048576 in
  8 <= b /\ 65536 + 32768 * (b - 8) <= 70000 < 65536 + 32768 * (b - 7).
Proof.
  exact (proj2 (proj2 (addr_to_block_range 70000 1048576 ltac:(lia))) ltac:(lia) ltac:(lia)).
Defined.

End ProtectClaims.

Module TransferClaims.
Import Packer Areas Chunks Be AreaOps Transfer WrapFacts CodecFacts CodecClaims
  AreaClaims ChunkClaims.

Lemma read_rau_nonzero (layout : list ra_area) (start size : Z) (i : nat) (e : Z) :
  set_read_boundaries layout start size = Some (i, e) -> 0 < rau (area_at layout i) \/ rau (area_at layout i) < 0.
Proof.
  intros H. unfold set_read_boundaries in H. cbv zeta in H.
  destruct (find_area_for_address layout start <? 0); [discriminate|].
  destruct (rau (area_at layout (Z.to_nat (find_area_for_address layout start))) =? 0) eqn:R;
    [discriminate|].
  split_ifs_opt H. all: injection H as <- _; rewrite Z.eqb_neq in R; lia.
Qed.

Lemma blank_loop_verify (dev : device) (end_ : Z) :
  forall (n : nat) (cur : Z), blank_loop dev end_ cur n = verify_loop dev [] end_ cur 0 n.
Proof.
  induction n as [|n IH]; intros cur; [reflexivity|].
  cbn [blank_loop verify_loop]. destruct (chunk_bounds end_ cur) as [cs ce].
  destruct (dev cur ce) as [flash|]; [|reflexivity].
  cbn [length]. cbv zeta.
  replace (Z.min (Z.of_nat 0 - 0) (Z.of_nat (length flash))) with 0 by lia.
  cbn [Z.to_nat cmp_loop]. rewrite Z.sub_0_r, Nat2Z.id.
  destruct (0 <? Z.of_nat (length flash)) eqn:E.
  - destruct (ff_loop cur flash 0 (length flash)); [reflexivity|].
    rewrite IH. reflexivity.
  - rewrite Z.ltb_ge in E. destruct flash; [|cbn [length] in E; lia].
    cbn [ff_loop length]. rewrite IH. reflexivity.
Qed.

(** Extra: let the device answer every REA request with the flash
    contents [mem] of the requested range. For an accepted read range
    [start, end] of [N] bytes (the chunk count not wrapping), the blank
    check returns the result of [verify_spec] against an empty file: it
    stops at the first byte [start + k] that is not [0xFF] and reports
    its address and value, and succeeds when all [N] bytes are [0xFF].
    A size of 0 is refused before any request. *)
Theorem blank_check_first_non_ff (mem : Z -> Z) (layout : list ra_area)
  (start size : Z) (i : nat) (e : Z)
  (Hs : 0 <= start < 4294967296) (Hz : 1 <= size < 4294967296)
  (Hb : set_read_boundaries layout start size = Some (i, e))
  (Hu : unit_fits (rau (area_at layout i)) (ead (area_at layout i)))
  (Hfit : e - start + 1 + 1023 < 4294967296) :
  ra_blank_check (flash_device mem) layout start size
  = Some (verify_spec mem [] start 0 (Z.to_nat (e - start + 1))) /\
  (forall dev : device, ra_blank_check dev layout start 0 = None).
Proof.
  split; [|intros dev; reflexivity].
  destruct (read_end_ok layout start size i e Hs Hz Hb Hu) as (_ & He & _).
  destruct Hu as (Hea & Hr0 & Hfu).
  unfold ra_blank_check. replace (size =? 0) with false by (symmetry; apply Z.eqb_neq; lia).
  rewrite Hb, blank_loop_verify. f_equal.
  rewrite (nr_chunks_small start e) by lia.
  assert (He' : e < 4294967296) by (pose proof (read_rau_nonzero _ _ _ _ _ Hb); lia).
  set (N := e - start + 1) in *.
  pose proof (Z.div_mod (N + 1023) 1024 ltac:(lia)) as Hdm.
  pose proof (Z.mod_pos_bound (N + 1023) 1024 ltac:(lia)) as Hmb.
  assert (Hq : 0 <= (N + 1023) / 1024) by (apply Z.div_pos; lia).
  pose proof (verify_loop_spec mem [] start e ltac:(simpl; lia) ltac:(lia) ltac:(lia)
                (Z.to_nat ((N + 1023) / 1024)) 0) as H.
  cbv zeta in H. rewrite Z.add_0_r in H. cbn [length] in H.
  replace (Z.min (Z.of_nat 0) (Z.of_nat 0)) with 0 in H by lia.
  rewrite Z2Nat.id in H by lia. apply H; lia.
Qed.

(** Witness: a 2000-byte blank check from 4096 of flash erased up to 4100. *)
Lemma blank_check_first_non_ff_witness :
  ra_blank_check (flash_device (fun a => if a <? 4100 then 255 else 0))
    [mk_area 0 0 65535 1024 4 4 4] 4096 2000
  = Some (verify_spec (fun a => if a <? 4100 then 255 else 0) [] 4096 0
            (Z.to_nat (6095 - 4096 + 1))).
Proof.
  exact (proj1 (blank_check_first_non_ff (fun a => if a <? 4100 then 255 else 0)
                  [mk_area 0 0 65535 1024 4 4 4] 4096 2000 0 6095
                  ltac:(lia) ltac:(lia) ltac:(vm_compute; reflexivity)
                  ltac:(unfold unit_fits; simpl; lia) ltac:(lia))).
Defined.

Section Scan.
Variable mem : Z -> Z.
Variable sad : Z.

Lemma raw_chunk (cur cs : Z) :
  0 <= cur -> 1 <= cs <= 1024 -> cur + cs - 1 < 4294967296 ->
  exists f, flash_raw_device mem cur (u32 (cur + cs - 1)) = Some f /\
    Z.of_nat (length f) = cs + 6 /\
    ra_unpack_pkt f
    = mk_unpack_out (RetOk cs)
        (Some (map (fun j => mem (u32 (cur + Z.of_nat j))) (seq 0 (Z.to_nat cs))))
        (Some cs) (Some REA_CMD).
Proof.
  intros H0 H1 H2. unfold flash_raw_device, flash_device.
  rewrite (u32_id (cur + cs - 1)) by lia.
  replace (cur + cs - 1 - cur + 1) with cs by ring.
  rewrite (u32_id cs) by lia.
  set (data := map (fun j => mem (u32 (cur + Z.of_nat j))) (seq 0 (Z.to_nat cs))).
  assert (Hl : Z.of_nat (length data) = cs)
    by (unfold data; rewrite length_map, length_seq; lia).
  destruct (unpack_pack MAX_PKT_LEN REA_CMD data)
    as (f & Hp & Hu); unfold REA_CMD, MAX_PKT_LEN, MAX_DATA_LEN in *; try lia.
  rewrite Hp. exists f. split; [reflexivity|].
  destruct (pack_ok_inv _ _ _ _ _ _ Hp) as (_ & _ & _ & Hf).
  split.
  - rewrite Hf. rewrite !length_app. cbn [length]. lia.
  - rewrite Hu, Hl. replace (0 <? cs) with true by (symmetry; apply Z.ltb_lt; lia).
    reflexivity.
Qed.

Lemma count_shift (cur : Z) (k : nat) (Hc : cur = sad + Z.of_nat k) :
  forall m j,
  length (filter (fun i => negb (mem (u32 (cur + Z.of_nat i)) =? 255)) (seq j m))
  = length (filter (fun i => negb (mem (u32 (sad + Z.of_nat i)) =? 255)) (seq (k + j) m)).
Proof.
  induction m as [|m IH]; intros j; [reflexivity|].
  cbn [seq filter]. replace (cur + Z.of_nat j) with (sad + Z.of_nat (k + j)) by lia.
  destruct (negb _); cbn [length]; rewrite IH, Nat.add_succ_r; reflexivity.
Qed.

Lemma scan_loop_spec (ead : Z) (Hs : 0 <= sad) (He : ead < 4294967296) :
  forall (n k : nat) (cur used : Z),
  cur = sad + Z.of_nat k ->
  let R := ead - cur + 1 in
  0 <= R -> R < 4294967296 ->
  1024 * Z.of_nat n - 1024 < R <= 1024 * Z.of_nat n ->
  scan_loop (flash_raw_device mem) ead cur n used
  = Some (used + Z.of_nat (length (filter (fun i => negb (mem (u32 (sad + Z.of_nat i)) =? 255))
                                     (seq k (Z.to_nat R))))).
Proof.
  induction n as [|n IH]; intros k cur used Hc; cbv zeta; intros HR0 HR1 Hn.
  - replace (Z.to_nat (ead - cur + 1)) with 0%nat by lia. cbn. f_equal. lia.
  - rewrite Nat2Z.inj_succ in Hn.
    cbn [scan_loop]. unfold chunk_bounds. cbv zeta.
    rewrite (u32_id (ead - cur + 1)) by lia.
    set (cs := if CHUNK_SIZE <? ead - cur + 1 then CHUNK_SIZE else ead - cur + 1).
    assert (Hcs : cs = Z.min 1024 (ead - cur + 1)).
    { unfold cs, CHUNK_SIZE. destruct (1024 <? ead - cur + 1) eqn:E;
        [rewrite Z.ltb_lt in E | rewrite Z.ltb_ge in E]; lia. }
    destruct (raw_chunk cur cs ltac:(lia) ltac:(lia) ltac:(lia)) as (f & Hd & Hl & Hu).
    rewrite Hd, Hl. replace (cs + 6 <? 7) with false by (symmetry; apply Z.ltb_ge; lia).
    rewrite Hu. cbn [u_ret u_cmd u_data].
    change (negb (Z.land REA_CMD STATUS_ERR =? 0)) with false. cbv iota beta.
    rewrite firstn_all2 by (rewrite length_map, length_seq; lia).
    rewrite filter_map_swap, length_map.
    rewrite (count_shift cur k Hc (Z.to_nat cs) 0), Nat.add_0_r.
    replace (Z.to_nat (ead - cur + 1))
      with (Z.to_nat cs + Z.to_nat (ead - cur + 1 - cs))%nat by lia.
    rewrite seq_app, filter_app, length_app, Nat2Z.inj_add.
    destruct (Nat.eq_dec n 0) as [-> | Hn0].
    + replace (Z.to_nat (ead - cur + 1 - cs)) with 0%nat by lia.
      cbn [scan_loop seq filter length]. f_equal. lia.
    + rewrite (u32_id (cur + cs)) by lia.
      rewrite (IH (k + Z.to_nat cs)%nat (cur + cs)) by lia.
      f_equal. replace (ead - (cur + cs) + 1) with (ead - cur + 1 - cs) by ring. lia.
Qed.

End Scan.

(** Extra: let the device answer every REA request with a response frame
    carrying the flash contents [mem] of the requested range. For an
    area [sad, ead] inside the 32-bit address space with [RAU <> 0] (the
    chunk count not wrapping), [status_scan_flash_usage] returns the
    number of addresses [sad + k], [k < ead - sad + 1], whose byte is not
    [0xFF]. With [RAU = 0] it returns -1 ([None]) before any request. *)
Theorem scan_flash_usage_count (mem : Z -> Z) (sad ead rau : Z)
  (Hs : 0 <= sad) (He : ead < 4294967296) (HN : 0 <= ead - sad + 1)
  (Hfit : ead - sad + 1 + 1023 < 4294967296) :
  (rau <> 0 ->
   status_scan_flash_usage (flash_raw_device mem) sad ead rau
   = Some (Z.of_nat (length (filter (fun k => negb (mem (u32 (sad + Z.of_nat k)) =? 255))
                               (seq 0 (Z.to_nat (ead - sad + 1))))))) /\
  (forall rdev : raw_device, status_scan_flash_usage rdev sad ead 0 = None).
Proof.
  split; [|intros rdev; reflexivity].
  intros Hr. unfold status_scan_flash_usage.
  replace (rau =? 0) with false by (symmetry; apply Z.eqb_neq; exact Hr).
  rewrite nr_chunks_small by lia.
  set (N := ead - sad + 1) in *.
  pose proof (Z.div_mod (N + 1023) 1024 ltac:(lia)) as Hdm.
  pose proof (Z.mod_pos_bound (N + 1023) 1024 ltac:(lia)) as Hmb.
  assert (Hq : 0 <= (N + 1023) / 1024) by (apply Z.div_pos; lia).
  rewrite (scan_loop_spec mem sad ead Hs He (Z.to_nat ((N + 1023) / 1024)) 0 sad 0)
    by (rewrite ?Z2Nat.id by lia; unfold N in *; lia).
  reflexivity.
Qed.

(** Witness: a 4 KB area whose first 100 bytes are programmed. *)
Lemma scan_flash_usage_count_witness :
  status_scan_flash_usage (flash_raw_device (fun a => if a <? 100 then 0 else 255)) 0 4095 4
  = Some (Z.of_nat (length (filter (fun k => negb ((if u32 (0 + Z.of_nat k) <? 100 then 0
                                                    else 255) =? 255))
                              (seq 0 (Z.to_nat (4095 - 0 + 1)))))).
Proof.
  exact (proj1 (scan_flash_usage_count (fun a => if a <? 100 then 0 else 255) 0 4095 4
                  ltac:(lia) ltac:(lia) ltac:(lia) ltac:(lia)) ltac:(lia)).
Defined.

Section Write.
Variable file : list Z.

Lemma skipn_cons_nth (a : nat) :
  forall l : list Z, (a < length l)%nat -> skipn a l = nth a l 0 :: skipn (S a) l.
Proof.
  induction a as [|a IH]; intros l Hl; destruct l as [|x l]; cbn [length] in Hl; try lia.
  - reflexivity.
  - cbn [skipn nth]. apply IH. lia.
Qed.

Lemma file_prefix (n : nat) :
  forall a, (a + n <= length file)%nat ->
  firstn n (skipn a file) = map (fun j => nth j file 0) (seq a n).
Proof.
  induction n as [|n IH]; intros a H; [reflexivity|].
  rewrite (skipn_cons_nth a file) by lia. cbn [firstn seq map]. f_equal.
  apply IH. lia.
Qed.

Lemma file_zeros (m : nat) :
  forall a, (length file <= a)%nat -> repeat 0 m = map (fun j => nth j file 0) (seq a m).
Proof.
  induction m as [|m IH]; intros a H; [reflexivity|].
  cbn [repeat seq map]. rewrite nth_overflow by lia. f_equal. apply IH. lia.
Qed.

(** A chunk copied from the file and padded with zeros is the file
    stream, read as 0 past its end. *)
Lemma chunk_stream (a n m k : nat) :
  (a + n <= length file)%nat -> (a + n = length file \/ m = 0)%nat -> k = (n + m)%nat ->
  firstn n (skipn a file) ++ repeat 0 m = map (fun j => nth j file 0) (seq a k).
Proof.
  intros H1 H2 ->. rewrite seq_app, map_app, file_prefix by exact H1. f_equal.
  destruct H2 as [H2 | ->]; [|reflexivity]. apply file_zeros. lia.
Qed.

Lemma stream_padded (n : nat) :
  map (fun j => nth j file 0) (seq 0 n) = firstn n file ++ repeat 0 (n - length file).
Proof.
  destruct (Nat.le_gt_cases n (length file)) as [H | H].
  - replace (n - length file)%nat with 0%nat by lia.
    symmetry. apply (chunk_stream 0 n 0 n); lia.
  - rewrite firstn_all2 by lia.
    rewrite <- (firstn_all file) at 1. rewrite <- (skipn_O file) at 1.
    symmetry. apply (chunk_stream 0 (length file) (n - length file) n); lia.
Qed.

Variable W : Z.
Hypothesis HW : W < 4294967296.
Hypothesis HF : Z.of_nat (length file) < 4294967296.

Lemma write_loop_spec (fuel : nat) :
  forall total, 0 <= total <= W -> W - total < Z.of_nat fuel ->
  exists cs fs,
    write_loop (fun _ => true) file W fuel total (Z.min total (Z.of_nat (length file)))
    = (fs, true) /\
    Forall2 (fun c f => ra_pack_pkt MAX_PKT_LEN WRI_CMD c true
                        = PackOk (Z.of_nat (length c) + 6) f) cs fs /\
    Forall (fun c => 1 <= length c <= 1024)%nat cs /\
    (forall k, (S k < length cs)%nat -> length (nth k cs []) = 1024%nat) /\
    (cs = [] <-> total = W) /\
    concat cs = map (fun j => nth j file 0) (seq (Z.to_nat total) (Z.to_nat (W - total))).
Proof.
  induction fuel as [|fuel IH]; intros total Ht Hf; [cbn [Z.of_nat] in Hf; lia|].
  set (F := Z.of_nat (length file)) in *.
  cbn [write_loop].
  destruct (total <? W) eqn:Elt; [rewrite Z.ltb_lt in Elt | rewrite Z.ltb_ge in Elt].
  2: { exists [], []. split; [reflexivity|]. split; [constructor|]. split; [constructor|].
       split; [cbn [length]; lia|]. split; [split; [lia | reflexivity]|].
       replace (Z.to_nat (W - total)) with 0%nat by lia. reflexivity. }
  cbv zeta. rewrite (u32_id (W - total)) by lia. fold F. rewrite (u32_id F) by lia.
  set (cs := if W - total <? CHUNK_SIZE then W - total else CHUNK_SIZE).
  assert (Hcs : cs = Z.min (W - total) 1024).
  { unfold cs, CHUNK_SIZE. destruct (W - total <? 1024) eqn:E;
      [rewrite Z.ltb_lt in E | rewrite Z.ltb_ge in E]; lia. }
  rewrite (u32_id (Z.min total F + cs)) by lia.
  set (cp := if Z.min total F + cs <=? F then cs
             else if Z.min total F <? F then u32 (F - Z.min total F) else 0).
  assert (Hcp : (total + cs <= F /\ cp = cs /\ Z.min total F = total) \/
                (total < F < total + cs /\ cp = F - total /\ Z.min total F = total) \/
                (F <= total /\ cp = 0 /\ Z.min total F = F)).
  { unfold cp. destruct (Z.min total F + cs <=? F) eqn:E1;
      [rewrite Z.leb_le in E1; left; lia | rewrite Z.leb_gt in E1].
    destruct (Z.min total F <? F) eqn:E2;
      [rewrite Z.ltb_lt in E2 | rewrite Z.ltb_ge in E2]; right; [left | right];
      rewrite ?u32_id by lia; lia. }
  set (chunk := map (fun j => nth j file 0) (seq (Z.to_nat total) (Z.to_nat cs))).
  assert (Hch : slice file (Z.min total F) cp ++ repeat 0 (Z.to_nat (cs - cp)) = chunk).
  { unfold slice, chunk.
    destruct Hcp as [(H1 & H2 & H3) | [(H1 & H2 & H3) | (H1 & H2 & H3)]];
      rewrite H2, H3.
    - apply chunk_stream; unfold F in *; lia.
    - apply chunk_stream; unfold F in *; lia.
    - cbn [Z.to_nat firstn app]. rewrite Z.sub_0_r. apply file_zeros. unfold F in *; lia. }
  rewrite Hch.
  assert (Hlen : length chunk = Z.to_nat cs) by (unfold chunk; rewrite length_map, length_seq; lia).
  pose proof (pack_ok MAX_PKT_LEN WRI_CMD chunk true) as Hp.
  rewrite Hlen in Hp.
  specialize (Hp ltac:(unfold MAX_DATA_LEN; lia) ltac:(unfold MAX_PKT_LEN, MAX_DATA_LEN; lia)).
  rewrite Hp. cbv beta iota.
  rewrite (u32_id (total + cs)) by lia.
  rewrite (u32_id (Z.min total F + cp)) by lia.
  replace (Z.min total F + cp) with (Z.min (total + cs) F) by lia.
  destruct (IH (total + cs) ltac:(lia) ltac:(lia))
    as (cs' & fs' & Heq & Hpk & Hsz & Hfull & Hnil & Hcat).
  fold F in Heq. rewrite Heq.
  eexists (chunk :: cs'), _. split; [reflexivity|].
  split; [constructor; [rewrite Hlen; exact Hp | exact Hpk]|].
  split; [constructor; [rewrite Hlen; lia | exact Hsz]|].
  split.
  { intros k Hk. destruct k as [|k].
    - cbn [nth]. rewrite Hlen.
      destruct cs' as [|c cs']; [cbn [length] in Hk; lia|].
      assert (total + cs <> W) by (intros E; apply Hnil in E; discriminate).
      lia.
    - cbn [nth]. apply Hfull. cbn [length] in Hk. lia. }
  split; [split; [intros E; discriminate | lia]|].
  cbn [concat]. rewrite Hcat. unfold chunk.
  replace (Z.to_nat (W - total)) with (Z.to_nat cs + Z.to_nat (W - (total + cs)))%nat by lia.
  rewrite seq_app, map_app. do 3 f_equal. lia.
Qed.

End Write.

(** Extra: [ra_write] first replaces a start of 0 by the file's embedded
    address when it has one. Take a parsed file of fewer than 2^32 bytes,
    [size <= file size] ([size = 0] standing for the whole file), and an
    accepted write range [start, end] that is not the whole 32-bit
    address space ([end - start + 1 < 2^32]). When every write exchange is
    acknowledged, [ra_write] sends the WRI request [{start, end}] and then
    the data frames of a list of chunks. The chunks hold 1 to 1024 bytes,
    all but the last exactly 1024, and together they are the first
    [end - start + 1] bytes of the file followed by zeros past its end.
    Without verify it then returns 0. With verify it then runs the
    read-back of [write_verify] and returns 0 exactly when that succeeds.
    A size larger than the file is refused before anything is sent. *)
Theorem write_sends_padded_file (layout : list ra_area) (file : list Z) (base : option Z)
  (start size : Z) (i : nat) (e : Z)
  (HF : Z.of_nat (length file) < 4294967296)
  (Hb : set_write_boundaries layout (write_start base start)
          (if size =? 0 then Z.of_nat (length file) else size) = Some (i, e))
  (Hz : size <= Z.of_nat (length file))
  (Hw : e - write_start base start + 1 < 4294967296) :
  (exists f0 cs fs,
     (forall (dev : device) (h : host_env) (verify : bool),
        let rv := if verify
                  then write_verify dev h layout (write_start base start)
                         (if size =? 0 then Z.of_nat (length file) else size)
                  else ([], true) in
        ra_write (fun _ => true) dev h layout file base start size verify
        = (f0 :: fs, fst rv, snd rv)) /\
     ra_pack_pkt MAX_PKT_LEN WRI_CMD
       (uint32_to_be (write_start base start) ++ uint32_to_be e) false = PackOk 14 f0 /\
     Forall2 (fun c f => ra_pack_pkt MAX_PKT_LEN WRI_CMD c true
                         = PackOk (Z.of_nat (length c) + 6) f) cs fs /\
     Forall (fun c => 1 <= length c <= 1024)%nat cs /\
     (forall k, (S k < length cs)%nat -> length (nth k cs []) = 1024%nat) /\
     concat cs = firstn (Z.to_nat (e - write_start base start + 1)) file
                 ++ repeat 0 (Z.to_nat (e - write_start base start + 1) - length file)) /\
  (forall (wdev : list Z -> bool) (dev : device) (h : host_env) (verify : bool) (size' : Z),
     Z.of_nat (length file) < size' ->
     ra_write wdev dev h layout file base start size' verify = ([], [], false)).
Proof.
  split.
  2: { intros wdev dev h verify size' Hlt. unfold ra_write. cbv zeta.
       rewrite (u32_id (Z.of_nat _)) by lia.
       replace (size' =? 0) with false by (symmetry; apply Z.eqb_neq; lia).
       replace (Z.of_nat (length file) <? size') with true by (symmetry; apply Z.ltb_lt; lia).
       reflexivity. }
  set (st := write_start base start) in *.
  set (sz := if size =? 0 then Z.of_nat (length file) else size) in *.
  assert (Hsz : (Z.of_nat (length file) <? sz) = false)
    by (unfold sz; apply Z.ltb_ge; destruct (size =? 0); lia).
  destruct (write_inv layout st _ i e Hb) as (_ & _ & He & Hse & _).
  assert (He0 : 0 <= e < 4294967296) by (rewrite He; apply u32_range).
  set (p := uint32_to_be st ++ uint32_to_be e).
  assert (Hl : length p = 8%nat) by reflexivity.
  pose proof (pack_ok MAX_PKT_LEN WRI_CMD p false) as Hp. rewrite Hl in Hp.
  specialize (Hp ltac:(unfold MAX_DATA_LEN; lia) ltac:(unfold MAX_PKT_LEN, MAX_DATA_LEN; lia)).
  change (Z.of_nat 8 + 6) with 14 in Hp.
  destruct (write_loop_spec file (e - st + 1) Hw HF (S (Z.to_nat (e - st + 1))) 0
              ltac:(lia) ltac:(lia))
    as (cs & fs & Heq & Hpk & Hsz1 & Hfull & _ & Hcat).
  replace (Z.min 0 (Z.of_nat (length file))) with 0 in Heq by lia.
  eexists _, cs, fs. split; [|split; [exact Hp|]].
  - intros dev h verify. cbv zeta. unfold ra_write. cbv zeta.
    fold st. rewrite (u32_id (Z.of_nat _)) by lia. fold sz.
    rewrite Hsz, Hb, (u32_id (e - st + 1)) by lia. fold p.
    rewrite Hp. cbv beta iota. rewrite Heq. cbn [negb].
    destruct verify; [|reflexivity].
    destruct (write_verify dev h layout st sz); reflexivity.
  - split; [exact Hpk|]. split; [exact Hsz1|]. split; [exact Hfull|].
    rewrite Hcat, Z.sub_0_r. apply stream_padded.
Qed.

(** Witness: a 5-byte file with embedded address 0x1000, written with
    start 0 and 4-byte write units: the range is [0x1000, 0x1007], sent as
    the file and three zero bytes; with verify, the read-back asks for the
    same range. *)
Lemma write_sends_padded_file_witness :
  exists f0 cs fs,
    ra_write (fun _ => true) (fun _ _ => None) (mk_host true true true true)
      [mk_area 0 0 65535 1024 4 4 4] [1; 2; 3; 4; 5] (Some 4096) 0 0 false
    = (f0 :: fs, [], true) /\
    ra_write (fun _ => true) (fun _ _ => Some []) (mk_host true true true true)
      [mk_area 0 0 65535 1024 4 4 4] [1; 2; 3; 4; 5] (Some 4096) 0 0 true
    = (f0 :: fs, [(4096, 4103)], true) /\
    concat cs = [1; 2; 3; 4; 5; 0; 0; 0].
Proof.
  destruct (proj1 (write_sends_padded_file [mk_area 0 0 65535 1024 4 4 4] [1; 2; 3; 4; 5]
                     (Some 4096) 0 0 0 4103 ltac:(simpl; lia) ltac:(vm_compute; reflexivity)
                     ltac:(simpl; lia) ltac:(vm_compute; reflexivity)))
    as (f0 & cs & fs & H1 & _ & _ & _ & _ & H6).
  exists f0, cs, fs. split; [|split].
  - rewrite H1. reflexivity.
  - rewrite H1. vm_compute. reflexivity.
  - rewrite H6. reflexivity.
Defined.

End TransferClaims.

Module BaudOpsClaims.
Import Packer Be Baud BaudOps.

Lemma best_in_rates (max : Z) : In (ra_best_baudrate max) rates.
Proof.
  unfold ra_best_baudrate, rates. cbn [first_le].
  repeat match goal with |- context [if ?c then _ else _] => destruct c end;
    simpl; tauto.
Qed.

(** Extra: every rate [ra_best_baudrate] can return is one that
    [baudrate_to_speed] maps to a speed constant, so [ra_set_baudrate]
    never refuses it: it sends the BAU request whose 4-byte payload is
    the rate in big-endian order. *)
Theorem best_rate_supported (max : Z) :
  let b := ra_best_baudrate max in
  baudrate_to_speed b = Bspeed b /\
  exists f, ra_set_baudrate_frame b = Some f /\
    ra_pack_pkt (MAX_DATA_LEN + 6) BAU_CMD (uint32_to_be b) false = PackOk 10 f /\
    be_to_uint32 (uint32_to_be b) = b.
Proof.
  cbv zeta. pose proof (best_in_rates max) as Hin.
  set (b := ra_best_baudrate max) in *. clearbody b.
  unfold rates in Hin.
  repeat (destruct Hin as [<- | Hin]);
    [.. | destruct Hin];
    (split; [vm_compute; reflexivity|];
     eexists; split; [vm_compute; reflexivity|]; split; vm_compute; reflexivity).
Qed.

(** Extra: the maximum [ra_get_device_max_baudrate] reports is 115200,
    1500000 or 4000000, whatever the device answers. With an adapter
    limit of at least 115200, the rate src/main.c picks,
    [ra_best_baudrate(min(device_max, adapter_max))], is at least 115200
    and at most both limits, so the switch past 9600 bps is always
    attempted. *)
Theorem auto_baudrate_bounds (resp : option (list Z)) (adapter_max : Z)
  (Ha : 115200 <= adapter_max) :
  let d := ra_get_device_max_baudrate resp in
  In d [115200; 1500000; 4000000] /\
  115200 <= auto_baudrate d adapter_max <= Z.min d adapter_max.
Proof.
  cbv zeta.
  assert (Hd : In (ra_get_device_max_baudrate resp) [115200; 1500000; 4000000]).
  { unfold ra_get_device_max_baudrate. destruct resp as [r|]; [|simpl; tauto].
    cbv zeta. destruct (Z.of_nat (length r) <? 7); [simpl; tauto|].
    destruct (u_ret (ra_unpack_pkt r)); [|simpl; tauto].
    repeat match goal with |- context [if ?c then _ else _] => destruct c end;
      simpl; tauto. }
  split; [exact Hd|].
  set (d := ra_get_device_max_baudrate resp) in *. clearbody d.
  assert (Ht : (if d <? adapter_max then d else adapter_max) = Z.min d adapter_max)
    by (simpl in Hd; destruct (d <? adapter_max) eqn:E;
        [rewrite Z.ltb_lt in E | rewrite Z.ltb_ge in E]; lia).
  unfold auto_baudrate.
  set (t := if d <? adapter_max then d else adapter_max) in *.
  assert (115200 <= t) by (simpl in Hd; unfold t; destruct (d <? adapter_max); lia).
  rewrite <- Ht. clear Ht Hd. clearbody t.
  unfold ra_best_baudrate, rates. cbn [first_le].
  repeat match goal with |- context [if ?c then _ else _] => destruct c eqn:? end;
    rewrite ?Z.leb_le, ?Z.leb_gt in *; lia.
Qed.

(** Witness: no answer to the signature request and a 921600 bps adapter. *)
Lemma auto_baudrate_bounds_witness :
  let d := ra_get_device_max_baudrate None in
  In d [115200; 1500000; 4000000] /\
  115200 <= auto_baudrate d 921600 <= Z.min d 921600.
Proof.
  exact (auto_baudrate_bounds None 921600 ltac:(lia)).
Defined.

End BaudOpsClaims.
